(** * The pharmacy controller of [drug_delivering_code.py]

    A shallow embedding of the device-side controller: the fingerprint
    codec [pack_fingerprint], the dispenser [dispense], the report client
    [report_dispensed], one pass of the control loop [main_step] and the
    supervising loop of [main_async].

    Python's [float] and numpy's [float64] are IEEE 754 binary64 numbers;
    they are modelled by [spec_float] at precision 53 and maximal exponent
    1024, with the operations of [SpecFloat] (round to nearest, ties to
    even).  Coroutines are run to completion in program order and every
    observable action is recorded in a trace of events. *)

From Stdlib Require Import ZArith List String Bool Lia QArith Qabs.
From Stdlib Require Import Floats.SpecFloat.
From Stdlib Require Import Ascii.
From stdpp Require Import base strings pretty gmap.
Import ListNotations.

Local Open Scope Z_scope.
Local Open Scope string_scope.

(** ** Exceptions and results *)

(** The exception classes that occur.  The first four derive from
    [BaseException] only; every other class derives from [Exception]. *)
Inductive exn : Type :=
| KeyboardInterrupt
| SystemExit
| GeneratorExit
| CancelledError
| NameError
| KeyError
| TypeError
| AttributeError
| IndexError
| StructError
| ValueError (msg : string)
| AssertionError (msg : string)
| OtherError (cls : string).

(** [isinstance(e, Exception)] *)
Definition is_Exception (e : exn) : bool :=
  match e with
  | KeyboardInterrupt | SystemExit | GeneratorExit | CancelledError => false
  | _ => true
  end.

Definition is_KeyboardInterrupt (e : exn) : bool :=
  match e with KeyboardInterrupt => true | _ => false end.

Inductive result (A : Type) : Type :=
| Ret (a : A)
| Raise (e : exn).
Arguments Ret {A} a.
Arguments Raise {A} e.

(** ** Binary64 arithmetic *)

Module F64.

Definition prec : Z := 53.
Definition emax : Z := 1024.

Definition of_Z (z : Z) : spec_float := binary_normalize prec emax z 0 false.
Definition mul : spec_float -> spec_float -> spec_float := SFmul prec emax.
Definition sub : spec_float -> spec_float -> spec_float := SFsub prec emax.
Definition ltb : spec_float -> spec_float -> bool := SFltb.
Definition leb : spec_float -> spec_float -> bool := SFleb.
Definition valid : spec_float -> bool := valid_binary prec emax.

(** [2 ** n] for an integer [n], as the double it evaluates to. *)
Definition pow2 (n : Z) : spec_float := SFldexp prec emax (of_Z 1) n.

Definition is_nan (x : spec_float) : bool :=
  match x with S754_nan => true | _ => false end.

(** The integer [floor x] of a finite double; shifting left by a negative
    amount is the arithmetic shift right, which rounds towards minus
    infinity. *)
Definition floor (x : spec_float) : Z :=
  match x with
  | S754_finite s m e => Z.shiftl (cond_Zopp s (Zpos m)) e
  | _ => 0
  end.

(** The exact value of a finite double, as a rational. *)
Definition to_Q (x : spec_float) : Q :=
  match x with
  | S754_finite s m e =>
      if (0 <=? e)%Z then inject_Z (cond_Zopp s (Zpos m) * 2 ^ e)
      else Qmake (cond_Zopp s (Zpos m)) (Z.to_pos (2 ^ (- e)))
  | _ => 0%Q
  end.

End F64.

(** ** The fingerprint codec *)

(** numpy's conversion of an integral double to [int16]: the value modulo
    [2^16], read as a signed number. *)
Definition to_int16 (z : Z) : Z := (z + 32768) mod 65536 - 32768.

(** One [h] field of [struct.pack] in little-endian order. *)
Definition le16 (z : Z) : list Z := [z mod 256; (z / 256) mod 256].

(** [struct.pack('<128h', *values)] *)
Definition struct_pack_128h (values : list Z) : result (list Z) :=
  if (Z.of_nat (List.length values) =? 128)%Z
  then Ret (flat_map le16 values)
  else Raise StructError.

(** [scale = 1 - 2 ** -53] *)
Definition scale0 : spec_float := F64.sub (F64.of_Z 1) (F64.pow2 (-53)).

(** [scale *= 2 ** 15] *)
Definition scale : spec_float := F64.mul scale0 (F64.of_Z (2 ^ 15)).

(** [np.array(np.floor(fingerprint * scale), dtype=np.int16)], one element.
    A NaN, whose conversion to an integer is left undefined, is taken to 0;
    the range checks let no infinity through. *)
Definition quantize (x : spec_float) : Z :=
  to_int16 (F64.floor (F64.mul x scale)).

Definition pack_fingerprint (fingerprint : list spec_float) : result (list Z) :=
  if existsb (fun x => F64.ltb (F64.of_Z 1) x) fingerprint then
    Raise (ValueError "Fingerprint contains value greater than 1")
  else if existsb (fun x => F64.ltb x (F64.of_Z (-1))) fingerprint then
    Raise (ValueError "Fingerprint contains value less than -1")
  else if F64.leb (F64.of_Z 1) scale0 then
    Raise (AssertionError "Fingerprint packing uses incorrect scaling factor")
  else
    struct_pack_128h (map quantize fingerprint).

(** ** Python values *)

(** The values a decoded JSON document and the request payloads are made
    of.  The items of a [PDict] are those of the dictionary, whose keys are
    strings and pairwise distinct. *)
#[warnings="-register-all"]
Inductive pyval : Type :=
| PNone
| PBool (b : bool)
| PInt (n : Z)
| PFloat (x : spec_float)
| PStr (s : string)
| PBytes (b : list Z)
| PList (l : list pyval)
| PDict (items : list (string * pyval)).

(** Truth value of an object, as [if], [and] and [not] test it. *)
Definition truthy (v : pyval) : bool :=
  match v with
  | PNone => false
  | PBool b => b
  | PInt n => negb (n =? 0)%Z
  | PFloat x => match x with S754_zero _ => false | _ => true end
  | PStr s => negb (String.eqb s "")
  | PBytes b => match b with [] => false | _ => true end
  | PList l => match l with [] => false | _ => true end
  | PDict items => match items with [] => false | _ => true end
  end.

Definition is_None (v : pyval) : bool :=
  match v with PNone => true | _ => false end.

Fixpoint dict_lookup (key : string) (items : list (string * pyval)) : option pyval :=
  match items with
  | [] => None
  | (k, v) :: rest => if String.eqb k key then Some v else dict_lookup key rest
  end.

(** [d.get(key, None)] *)
Definition py_get (d : pyval) (key : string) : result pyval :=
  match d with
  | PDict items => Ret (default PNone (dict_lookup key items))
  | _ => Raise AttributeError
  end.

(** [d[key]] for a string [key] *)
Definition py_getitem (d : pyval) (key : string) : result pyval :=
  match d with
  | PDict items =>
      match dict_lookup key items with
      | Some v => Ret v
      | None => Raise KeyError
      end
  | _ => Raise TypeError
  end.

Fixpoint chars (s : string) : list pyval :=
  match s with
  | EmptyString => []
  | String c rest => PStr (String c EmptyString) :: chars rest
  end.

(** The elements a [for] loop over [v] visits. *)
Definition py_iter (v : pyval) : result (list pyval) :=
  match v with
  | PList l => Ret l
  | PDict items => Ret (map (fun kv => PStr (fst kv)) items)
  | PStr s => Ret (chars s)
  | PBytes b => Ret (map PInt b)
  | _ => Raise TypeError
  end.

(** [v == s] for a string [s] *)
Definition py_eq_str (v : pyval) (s : string) : bool :=
  match v with PStr s' => String.eqb s' s | _ => false end.

(** ** Module constants and globals *)

Definition api_endpoint : string := "https://example.com/arka".
Definition api_version : string := "0".

(** The module's global names that the controller reads: the local drug
    database [din_to_motor], and [data], a name that [main_step] reads
    and that no statement of the module binds. *)
Record globals : Type := {
  din_to_motor : gmap string string;
  data : option pyval
}.

(** The globals of the module as it is written, once [main] has loaded the
    configuration [cfg]. *)
Definition module_globals (cfg : gmap string string) : globals :=
  {| din_to_motor := cfg; data := None |}.

(** ** Events and the effect monad *)

Inductive level : Type := DEBUG | INFO | WARNING | ERROR.

Inductive event : Type :=
| Log (lvl : level) (msg : string)          (* logging.log(lvl, msg) *)
| LogExc (lvl : level) (e : exn)            (* logging.log(lvl, exc) *)
| Sleep (seconds : Z)                       (* await asyncio.sleep(seconds) *)
| UtcNow                                    (* datetime.datetime.utcnow() *)
| OpenCapture                               (* cv2.VideoCapture(0) *)
| CaptureRead                               (* capture.read() *)
| CvtColor                                  (* cv2.cvtColor *)
| FaceLocations                             (* face_recognition.face_locations *)
| FaceEncodings                             (* face_recognition.face_encodings *)
| SessionOpen                               (* aiohttp.ClientSession() *)
| HttpGet (url : string) (payload : pyval)  (* session.get(url, json=payload) *)
| CreateTask (auth_token : pyval) (drugs : list string)
                                            (* asyncio.create_task(report_dispensed(..)) *)
| Attempt (din motor : string).             (* dispense holds the motor of din *)

Definition trace : Type := list event.

(** A computation yields the events it performed and how it ended. *)
Definition M (A : Type) : Type := (trace * result A)%type.

Definition ret {A} (a : A) : M A := ([], Ret a).
Definition raise {A} (e : exn) : M A := ([], Raise e).
Definition emit (ev : event) : M unit := ([ev], Ret tt).
Definition lift {A} (r : result A) : M A := ([], r).

Definition bind {A B} (m : M A) (k : A -> M B) : M B :=
  match m with
  | (t, Ret a) => let '(t', r) := k a in ((t ++ t')%list, r)
  | (t, Raise e) => (t, Raise e)
  end.

Notation "'let!' x ':=' m 'in' k" := (bind m (fun x => k))
  (at level 10, x name, m at level 100, k at level 200).
Notation "m ;; k" := (bind m (fun _ => k))
  (at level 100, k at level 200, right associativity).

Definition log (lvl : level) (msg : string) : M unit := emit (Log lvl msg).

(** A call to a collaborator: the call is recorded, then it returns or
    raises as the environment decides. *)
Definition call {A} (ev : event) (outcome : result A) : M A :=
  emit ev ;; lift outcome.

(** ** Text helpers *)

Definition hex_digit (n : Z) : string :=
  match String.get (Z.to_nat n) "0123456789abcdef" with
  | Some c => String c EmptyString
  | None => ""
  end.

(** [bytes.hex()] *)
Fixpoint hex (bs : list Z) : string :=
  match bs with
  | [] => ""
  | b :: rest => hex_digit (b / 16) ++ hex_digit (b mod 16) ++ hex rest
  end.

Definition b64_char (n : Z) : Z :=
  match String.get (Z.to_nat n)
          "ABCDEFGHIJKLMNOPQRSTUVWXYZabcdefghijklmnopqrstuvwxyz0123456789+/" with
  | Some c => Z.of_nat (Ascii.nat_of_ascii c)
  | None => 61
  end.

(** [base64.b64encode]; 61 is the padding character. *)
Fixpoint b64encode (bs : list Z) : list Z :=
  match bs with
  | [] => []
  | [a] => [b64_char (a / 4); b64_char (a mod 4 * 16); 61; 61]
  | [a; b] =>
      [b64_char (a / 4); b64_char (a mod 4 * 16 + b / 16);
       b64_char (b mod 16 * 4); 61]
  | a :: b :: c :: rest =>
      [b64_char (a / 4); b64_char (a mod 4 * 16 + b / 16);
       b64_char (b mod 16 * 4 + c / 64); b64_char (c mod 64)] ++ b64encode rest
  end%list.

(** ** The dispenser *)

(** [dispense(din)]: the motor is looked up, which raises [KeyError] for a
    drug that is not stocked; the body then drives nothing and reports
    failure. *)
Definition dispense (g : globals) (din : string) : M bool :=
  match din_to_motor g !! din with
  | None => raise KeyError
  | Some motor => emit (Attempt din motor) ;; ret false
  end.

(** ** The report client *)

(** What the environment decides during one report: the clock reading and
    the outcome of opening the session and of sending the request. *)
Record report_env : Type := {
  re_ts : spec_float;
  re_session : result unit;
  re_get : result unit
}.

(** [report_dispensed(auth_token, drugs_dispensed)].  In the loop, the
    response is [response.json()] without [await], a coroutine object, and
    subscripting it raises [TypeError] in the first pass. *)
Definition report_dispensed (env : report_env) (auth_token : pyval)
    (drugs_dispensed : list string) : M bool :=
  emit UtcNow ;;
  emit (Sleep 30) ;;
  match drugs_dispensed with
  | [] =>
      log INFO "No drug dispensing to report" ;;
      ret true
  | _ :: _ =>
      log DEBUG "Now trying to report drug dispensed" ;;
      call SessionOpen (re_session env) ;;
      log DEBUG "HTTP session started from report_dispensed" ;;
      let data_send :=
        PDict [("version", PStr api_version);
               ("id", auth_token);
               ("din", PList (map PStr drugs_dispensed));
               ("timestamp", PFloat (re_ts env))] in
      call (HttpGet (api_endpoint ++ "/user/pharmacy_done") data_send) (re_get env) ;;
      raise TypeError
  end.

(** ** One pass of the control loop *)

(** What the environment decides during one pass: the clock text logged at
    the top of the loop and the outcome of every call to a collaborator.
    Pixel buffers and face boxes only travel between collaborators; of the
    boxes the controller uses the count. *)
Record scenario : Type := {
  sc_now : string;
  sc_pacing : result unit;
  sc_read : result bool;
  sc_cvt : result unit;
  sc_faces : result nat;
  sc_encodings : result (list (list spec_float));
  sc_session : result unit;
  sc_get : result unit;
  sc_json : result pyval;
  sc_report : report_env
}.

(** A read of the global name [data]. *)
Definition read_data (g : globals) : M pyval :=
  match data g with
  | Some d => ret d
  | None => raise NameError
  end.

(** [data_response is not None and data.get('success', None)
     and data['version'] == api_version] *)
Definition auth_guard (g : globals) (data_response : pyval) : M bool :=
  if is_None data_response then ret false
  else
    let! d := read_data g in
    let! success := lift (py_get d "success") in
    if negb (truthy success) then ret false
    else
      let! d := read_data g in
      let! version := lift (py_getitem d "version") in
      ret (py_eq_str version api_version).

(** The loop over the prescriptions; [drugs_dispensed] is the list built so
    far.  A key of [din_to_motor] is a string, so no other hashable value
    is in it, and a list or a dictionary cannot be hashed. *)
Fixpoint dispense_loop (g : globals) (prescriptions : list pyval)
    (drugs_dispensed : list string) : M (list string) :=
  match prescriptions with
  | [] => ret drugs_dispensed
  | pres :: rest =>
      let! din := lift (py_getitem pres "din") in
      match din with
      | PStr s =>
          if bool_decide (is_Some (din_to_motor g !! s)) then
            log INFO ("Attempting to dispense drug with DIN " ++ s) ;;
            let! drug_was_dispensed := dispense g s in
            if drug_was_dispensed : bool then
              log INFO "Drug dispense reported success" ;;
              dispense_loop g rest (drugs_dispensed ++ [s])%list
            else
              log INFO "Drug dispense reported failure" ;;
              dispense_loop g rest drugs_dispensed
          else dispense_loop g rest drugs_dispensed
      | PList _ | PDict _ => raise TypeError
      | _ => dispense_loop g rest drugs_dispensed
      end
  end.

(** The body of [if ...:] on a match.  The report task is created and
    awaited before the loop over the prescriptions starts; awaiting the
    task runs the report to its end and hands on what it raises. *)
Definition on_match (g : globals) (sc : scenario) : M unit :=
  log DEBUG "Authenticated and prescription data acquired" ;;
  let! d := read_data g in
  let! auth_token := lift (py_getitem d "id") in
  let drugs_dispensed : list string := [] in
  emit (CreateTask auth_token drugs_dispensed) ;;
  report_dispensed (sc_report sc) auth_token drugs_dispensed ;;
  let! d := read_data g in
  let! prescriptions := lift (py_getitem d "prescriptions") in
  let! items := lift (py_iter prescriptions) in
  dispense_loop g items drugs_dispensed ;;
  ret tt.

Definition main_step (g : globals) (sc : scenario) : M unit :=
  call (Sleep 1) (sc_pacing sc) ;;
  log DEBUG "Now trying to capture an image" ;;
  let! succeeded := call CaptureRead (sc_read sc) in
  log DEBUG ("Image capture completed, and it "
             ++ (if succeeded : bool then "succeeded" else "failed")) ;;
  if negb succeeded then ret tt
  else
    call CvtColor (sc_cvt sc) ;;
    log DEBUG "Image colour channels changed to RGB" ;;
    let! num_faces := call FaceLocations (sc_faces sc) in
    log DEBUG ("Found " ++ pretty (num_faces : nat) ++ "faces in the image") ;;
    if (num_faces =? 0)%nat then ret tt
    else
      let! fingerprints := call FaceEncodings (sc_encodings sc) in
      let! fingerprint :=
        match fingerprints with
        | [] => raise IndexError
        | f :: _ => ret f
        end in
      log DEBUG "Face fingerprint was generated" ;;
      let! packed_fingerprint := lift (pack_fingerprint fingerprint) in
      log INFO ("Packed face fingerprint as " ++ hex packed_fingerprint) ;;
      call SessionOpen (sc_session sc) ;;
      log DEBUG "HTTP session started from main_step" ;;
      let data_send :=
        PDict [("version", PStr api_version);
               ("fingerprint", PBytes (b64encode packed_fingerprint))] in
      call (HttpGet (api_endpoint ++ "/user/pharmacy_get") data_send) (sc_get sc) ;;
      log DEBUG "Sent face fingerprint to authenticate" ;;
      let! data_response := lift (sc_json sc) in
      log DEBUG "Decoded response data as JSON" ;;
      let! matched := auth_guard g data_response in
      if matched : bool then on_match g sc else ret tt.

(** ** The supervising loop *)

(** [try: m  except ...: handler]: the events of [m] are kept, and what it
    raises goes to the handler. *)
Definition try_except {A} (m : M A) (handler : exn -> M A) : M A :=
  match m with
  | (t, Ret a) => (t, Ret a)
  | (t, Raise e) => let '(t', r) := handler e in ((t ++ t')%list, r)
  end.

(** One pass of [while True:] in [main_async]: [Ret] means that the loop
    goes on to its next pass, [Raise] that the exception leaves the loop.
    An exception that neither [except] clause matches is raised on. *)
Definition loop_pass (g : globals) (sc : scenario) : M unit :=
  emit UtcNow ;;
  log DEBUG ("Starting the main loop | Current UTC time is " ++ sc_now sc) ;;
  try_except (main_step g sc)
    (fun e =>
       if is_KeyboardInterrupt e then
         log INFO "Exiting main loop because a keyboard interrupt (SIGINT) was received" ;;
         raise KeyboardInterrupt
       else if is_Exception e then
         emit (LogExc ERROR e)
       else raise e).

(** The loop, run over the scenarios of its first passes.  The loop has no
    exit of its own: [Ret] after the last scenario means that it is still
    running. *)
Fixpoint main_loop (g : globals) (passes : list scenario) : M unit :=
  match passes with
  | [] => ret tt
  | sc :: rest => loop_pass g sc ;; main_loop g rest
  end.

Definition main_async (g : globals) (now : string) (passes : list scenario) : M unit :=
  emit UtcNow ;;
  log INFO ("Starting main function | Current UTC time is " ++ now) ;;
  emit OpenCapture ;;
  main_loop g passes.

(** ** Observations on traces and inputs *)

Definition is_attempt (din : string) (ev : event) : bool :=
  match ev with
  | Attempt d _ => String.eqb d din
  | _ => false
  end.

(** The number of dispense attempts for [din] in a trace. *)
Definition attempts (din : string) (t : trace) : nat :=
  List.length (List.filter (is_attempt din) t).

Definition names_din (din : string) (pres : pyval) : bool :=
  match py_getitem pres "din" with
  | Ret (PStr s) => String.eqb s din
  | _ => false
  end.

(** The number of prescriptions of a list that name [din]. *)
Definition occurrences (din : string) (prescriptions : list pyval) : nat :=
  List.length (List.filter (names_din din) prescriptions).

Definition is_sleep (ev : event) : bool :=
  match ev with Sleep _ => true | _ => false end.

Definition is_network (ev : event) : bool :=
  match ev with SessionOpen | HttpGet _ _ => true | _ => false end.

(** [-1 <= x <= 1], with the comparisons of binary64 *)
Definition in_unit_range (x : spec_float) : bool :=
  F64.leb (F64.of_Z (-1)) x && F64.leb x (F64.of_Z 1).

(** A feature vector as the capture pipeline produces it: 128 doubles, each
    in [[-1, 1]]. *)
Definition valid_vector (v : list spec_float) : bool :=
  (Z.of_nat (List.length v) =? 128)%Z
  && forallb (fun x => F64.valid x && in_unit_range x) v.

(** The signed 16-bit number that two bytes hold in little-endian order. *)
Definition int16_of_le (lo hi : Z) : Z := to_int16 (lo + 256 * hi).

Fixpoint decode_le16 (bs : list Z) : list Z :=
  match bs with
  | lo :: hi :: rest => int16_of_le lo hi :: decode_le16 rest
  | _ => []
  end.

(** The scale of the specification, [(1 - 2^-53) * 2^15], as a rational. *)
Definition scale_Q : Q := ((1 - 1 / inject_Z (2 ^ 53)) * inject_Z (2 ^ 15))%Q.

(** Modelled from the spec: the repository defines no [unpack]; section 4.1
    of the specification describes it as the inverse scaling of [pack], so
    each 16-bit number is divided by the scale, in exact arithmetic. *)
Definition unpack (bs : list Z) : list Q :=
  map (fun z => (inject_Z z / scale_Q)%Q) (decode_le16 bs).

(** ** Sample inputs *)

Definition zero_vector : list spec_float := repeat (S754_zero false) 128.

Definition one_vector : list spec_float := repeat (F64.of_Z 1) 128.

(** 1.5, and a vector that holds it. *)
Definition one_and_a_half : spec_float := S754_finite false 6755399441055744 (-52).

Definition high_vector : list spec_float :=
  one_and_a_half :: repeat (S754_zero false) 127.

Definition quiet_report : report_env :=
  {| re_ts := F64.of_Z 0; re_session := Ret tt; re_get := Ret tt |}.

(** A pass in which every collaborator succeeds, one face is found and the
    server answers [response]. *)
Definition scenario_with (response : pyval) : scenario :=
  {| sc_now := "2020-01-01 00:00:00.000000";
     sc_pacing := Ret tt;
     sc_read := Ret true;
     sc_cvt := Ret tt;
     sc_faces := Ret 1%nat;
     sc_encodings := Ret [zero_vector];
     sc_session := Ret tt;
     sc_get := Ret tt;
     sc_json := Ret response;
     sc_report := quiet_report |}.

(** A pass in which reading the camera raises an error of OpenCV. *)
Definition scenario_camera_fault : scenario :=
  {| sc_now := "2020-01-01 00:00:01.000000";
     sc_pacing := Ret tt;
     sc_read := Raise (OtherError "cv2.error");
     sc_cvt := Ret tt;
     sc_faces := Ret 1%nat;
     sc_encodings := Ret [zero_vector];
     sc_session := Ret tt;
     sc_get := Ret tt;
     sc_json := Ret PNone;
     sc_report := quiet_report |}.

Definition sample_cfg : gmap string string := {[ "02242705" := "motor1" ]}.

Definition pres_of (din : string) : pyval := PDict [("din", PStr din)].

Definition response_of (version : string) (success : bool)
    (prescriptions : list pyval) : pyval :=
  PDict [("version", PStr version); ("success", PBool success);
         ("id", PStr "token"); ("prescriptions", PList prescriptions)].

(** A match whose list names the stocked drug once. *)
Definition response_once : pyval := response_of "0" true [pres_of "02242705"].


(** The answer "no match". *)
Definition response_no_match : pyval :=
  PDict [("version", PStr api_version); ("success", PBool false)].

(** The part of [main_step] up to the decoded response: [None] stands for
    the two early [return]s. *)
Definition acquire (sc : scenario) : M (option pyval) :=
  call (Sleep 1) (sc_pacing sc) ;;
  log DEBUG "Now trying to capture an image" ;;
  let! succeeded := call CaptureRead (sc_read sc) in
  log DEBUG ("Image capture completed, and it "
             ++ (if succeeded : bool then "succeeded" else "failed")) ;;
  if negb succeeded then ret None
  else
    call CvtColor (sc_cvt sc) ;;
    log DEBUG "Image colour channels changed to RGB" ;;
    let! num_faces := call FaceLocations (sc_faces sc) in
    log DEBUG ("Found " ++ pretty (num_faces : nat) ++ "faces in the image") ;;
    if (num_faces =? 0)%nat then ret None
    else
      let! fingerprints := call FaceEncodings (sc_encodings sc) in
      let! fingerprint :=
        match fingerprints with
        | [] => raise IndexError
        | f :: _ => ret f
        end in
      log DEBUG "Face fingerprint was generated" ;;
      let! packed_fingerprint := lift (pack_fingerprint fingerprint) in
      log INFO ("Packed face fingerprint as " ++ hex packed_fingerprint) ;;
      call SessionOpen (sc_session sc) ;;
      log DEBUG "HTTP session started from main_step" ;;
      let data_send :=
        PDict [("version", PStr api_version);
               ("fingerprint", PBytes (b64encode packed_fingerprint))] in
      call (HttpGet (api_endpoint ++ "/user/pharmacy_get") data_send) (sc_get sc) ;;
      log DEBUG "Sent face fingerprint to authenticate" ;;
      let! data_response := lift (sc_json sc) in
      log DEBUG "Decoded response data as JSON" ;;
      ret (Some data_response).

(** The part of [main_step] from the guard on. *)
Definition decide_and_dispense (g : globals) (sc : scenario)
    (acquired : option pyval) : M unit :=
  match acquired with
  | None => ret tt
  | Some data_response =>
      let! matched := auth_guard g data_response in
      if matched : bool then on_match g sc else ret tt
  end.

Definition is_create_task (ev : event) : bool :=
  match ev with CreateTask _ _ => true | _ => false end.

Definition is_any_attempt (ev : event) : bool :=
  match ev with Attempt _ _ => true | _ => false end.

(** [sc], with the server answering [response]. *)
Definition answer (sc : scenario) (response : pyval) : scenario :=
  {| sc_now := sc_now sc;
     sc_pacing := sc_pacing sc;
     sc_read := sc_read sc;
     sc_cvt := sc_cvt sc;
     sc_faces := sc_faces sc;
     sc_encodings := sc_encodings sc;
     sc_session := sc_session sc;
     sc_get := sc_get sc;
     sc_json := Ret response;
     sc_report := sc_report sc |}.

(** ** Loading the configuration *)

(** [str.isspace] on a character; characters are code points below 256. *)
Definition is_space (c : ascii) : bool :=
  let n := Z.of_nat (nat_of_ascii c) in
  ((9 <=? n)%Z && (n <=? 13)%Z) || ((28 <=? n)%Z && (n <=? 32)%Z)
  || (n =? 133)%Z || (n =? 160)%Z.

Fixpoint py_lstrip (s : string) : string :=
  match s with
  | String c rest => if is_space c then py_lstrip rest else s
  | EmptyString => EmptyString
  end.

Fixpoint py_rstrip (s : string) : string :=
  match s with
  | String c rest =>
      match py_rstrip rest with
      | EmptyString => if is_space c then EmptyString else String c EmptyString
      | kept => String c kept
      end
  | EmptyString => EmptyString
  end.

(** [str.strip()] *)
Definition py_strip (s : string) : string := py_rstrip (py_lstrip s).

(** [str.split()], with [word] the characters of the field being read. *)
Fixpoint split_from (word : string) (s : string) : list string :=
  match s with
  | String c rest =>
      if is_space c then
        match word with
        | EmptyString => split_from EmptyString rest
        | _ => word :: split_from EmptyString rest
        end
      else split_from (word ++ String c EmptyString) rest
  | EmptyString =>
      match word with
      | EmptyString => []
      | _ => [word]
      end
  end.

Definition py_split (s : string) : list string := split_from EmptyString s.

(** [din, motor = line.strip().split()] *)
Definition parse_line (line : string) : result (string * string) :=
  match py_split (py_strip line) with
  | [din; motor] => Ret (din, motor)
  | _ :: _ :: _ :: _ =>
      Raise (ValueError "too many values to unpack (expected 2)")
  | fields =>
      Raise (ValueError ("not enough values to unpack (expected 2, got "
                         ++ pretty (List.length fields) ++ ")"))
  end.

(** The loop of [main] over the lines of [din.cfg]. *)
Fixpoint load_lines (lines : list string) (din_to_motor : gmap string string)
  : result (gmap string string) :=
  match lines with
  | [] => Ret din_to_motor
  | line :: rest =>
      match parse_line line with
      | Ret (din, motor) => load_lines rest (<[din := motor]> din_to_motor)
      | Raise e => Raise e
      end
  end.

(** [main()]: [file] is what opening and reading [din.cfg] gives, its lines
    or an error; the module starts with an empty [din_to_motor]. *)
Definition main (file : result (list string)) (now : string)
    (passes : list scenario) : M unit :=
  let! lines := lift file in
  let! cfg := lift (load_lines lines ∅) in
  main_async (module_globals cfg) now passes.

Fixpoint all_chars (p : ascii -> bool) (s : string) : bool :=
  match s with
  | String c rest => p c && all_chars p rest
  | EmptyString => true
  end.

(** A string of whitespace only. *)
Definition blank (s : string) : bool := all_chars is_space s.

(** A string without whitespace. *)
Definition solid (s : string) : bool := all_chars (fun c => negb (is_space c)) s.

(** The lines of a configuration that binds a drug twice. *)
Definition sample_lines : list string :=
  ["02242705 motor1"; "00000002  motor2 "; " 02242705 motor3"].

(** ** More observations *)

(** The drugs of the dispense attempts of a trace, in order. *)
Fixpoint attempted (t : trace) : list string :=
  match t with
  | Attempt din _ :: rest => din :: attempted rest
  | _ :: rest => attempted rest
  | [] => []
  end.

(** The stocked drugs that the prescriptions of a list name, in order. *)
Fixpoint stocked_dins (g : globals) (prescriptions : list pyval) : list string :=
  match prescriptions with
  | pres :: rest =>
      match py_getitem pres "din" with
      | Ret (PStr s) =>
          if bool_decide (is_Some (din_to_motor g !! s))
          then s :: stocked_dins g rest else stocked_dins g rest
      | _ => stocked_dins g rest
      end
  | [] => []
  end.

Definition is_request (ev : event) : bool :=
  match ev with HttpGet _ _ => true | _ => false end.

Definition is_open_capture (ev : event) : bool :=
  match ev with OpenCapture => true | _ => false end.

(** The events of the phases of a pass before the guard. *)
Definition acquire_event (ev : event) : bool :=
  match ev with
  | Log _ _ | Sleep _ | CaptureRead | CvtColor | FaceLocations | FaceEncodings
  | SessionOpen | HttpGet _ _ => true
  | _ => false
  end.

(** The events of the branch taken on a match. *)
Definition match_event (ev : event) : bool :=
  match ev with
  | Log _ _ | CreateTask _ _ | UtcNow | Sleep _ | Attempt _ _ => true
  | _ => false
  end.

(** The server's answer reaches the guard: every collaborator succeeds, a
    face is found and its fingerprint is packed. *)
Definition answered (sc : scenario) (response : pyval) : Prop :=
  sc_pacing sc = Ret tt /\ sc_read sc = Ret true /\ sc_cvt sc = Ret tt
  /\ (exists n, sc_faces sc = Ret (S n))
  /\ (exists f fs packed,
         sc_encodings sc = Ret (f :: fs) /\ pack_fingerprint f = Ret packed)
  /\ sc_session sc = Ret tt /\ sc_get sc = Ret tt
  /\ sc_json sc = Ret response.

(** ** More sample inputs *)

(** A pass in which the operator interrupts the read of the camera. *)
Definition scenario_interrupt : scenario :=
  {| sc_now := "2020-01-01 00:00:02.000000";
     sc_pacing := Ret tt;
     sc_read := Raise KeyboardInterrupt;
     sc_cvt := Ret tt;
     sc_faces := Ret 1%nat;
     sc_encodings := Ret [zero_vector];
     sc_session := Ret tt;
     sc_get := Ret tt;
     sc_json := Ret PNone;
     sc_report := quiet_report |}.

(** A vector of 128 elements whose first element is a NaN. *)
Definition nan_vector : list spec_float :=
  S754_nan :: repeat (S754_zero false) 127.

(** What [sample_lines] loads to. *)
Definition sample_loaded : gmap string string :=
  {[ "02242705" := "motor3"; "00000002" := "motor2" ]}.


(** * Properties *)

(** ** The effect monad *)

Lemma bind_ret_l {A B} (a : A) (k : A -> M B) : bind (ret a) k = k a.
Proof. unfold bind, ret. destruct (k a) as [t r]. reflexivity. Qed.

Lemma bind_raise {A B} (e : exn) (k : A -> M B) : bind (raise e) k = raise e.
Proof. reflexivity. Qed.

Lemma bind_emit {B} (ev : event) (k : unit -> M B) :
  bind (emit ev) k = (ev :: fst (k tt), snd (k tt)).
Proof. unfold bind, emit. destruct (k tt) as [t r]. reflexivity. Qed.

Lemma bind_fst {A B} (m : M A) (k : A -> M B) :
  fst (bind m k) =
  match snd m with
  | Ret a => (fst m ++ fst (k a))%list
  | Raise _ => fst m
  end.
Proof.
  destruct m as [t [a | e]]; simpl; [destruct (k a); reflexivity | reflexivity].
Qed.


(** ** The dispenser and the loop over the prescriptions *)

Lemma dispense_stocked (g : globals) (din motor : string) :
  din_to_motor g !! din = Some motor ->
  dispense g din = ([Attempt din motor], Ret false).
Proof. intros H. unfold dispense. rewrite H. reflexivity. Qed.

Lemma dispense_absent (g : globals) (din : string) :
  din_to_motor g !! din = None ->
  dispense g din = ([], Raise KeyError).
Proof. intros H. unfold dispense. rewrite H. reflexivity. Qed.

(** One turn of the loop on a prescription of a stocked drug. *)
Lemma dispense_loop_stocked (g : globals) (pres : pyval) (rest : list pyval)
    (acc : list string) (din motor : string) :
  py_getitem pres "din" = Ret (PStr din) ->
  din_to_motor g !! din = Some motor ->
  dispense_loop g (pres :: rest) acc =
  (Log INFO ("Attempting to dispense drug with DIN " ++ din)
   :: Attempt din motor
   :: Log INFO "Drug dispense reported failure"
   :: fst (dispense_loop g rest acc),
   snd (dispense_loop g rest acc)).
Proof.
  intros Hdin Hmotor. simpl. rewrite Hdin. unfold lift. simpl.
  rewrite bool_decide_eq_true_2 by (rewrite Hmotor; eauto).
  rewrite (dispense_stocked _ _ _ Hmotor). simpl.
  destruct (dispense_loop g rest acc) as [t r]. reflexivity.
Qed.

(** One turn of the loop on a prescription of a drug that is not stocked. *)
Lemma dispense_loop_absent (g : globals) (pres : pyval) (rest : list pyval)
    (acc : list string) (din : string) :
  py_getitem pres "din" = Ret (PStr din) ->
  din_to_motor g !! din = None ->
  dispense_loop g (pres :: rest) acc = dispense_loop g rest acc.
Proof.
  intros Hdin Hmotor. simpl. rewrite Hdin. unfold lift. simpl.
  rewrite bool_decide_eq_false_2 by (rewrite Hmotor; intros [? ?]; discriminate).
  destruct (dispense_loop g rest acc) as [t r]. reflexivity.
Qed.

(** One turn of the loop on a prescription whose [din] is hashable and not
    a string. *)
Lemma dispense_loop_other (g : globals) (pres : pyval) (rest : list pyval)
    (acc : list string) (din : pyval) :
  py_getitem pres "din" = Ret din ->
  match din with PStr _ | PList _ | PDict _ => False | _ => True end ->
  dispense_loop g (pres :: rest) acc = dispense_loop g rest acc.
Proof.
  intros Hdin Hkind. simpl. rewrite Hdin. unfold lift. simpl.
  destruct din; try contradiction;
    destruct (dispense_loop g rest acc) as [t r]; reflexivity.
Qed.

Lemma dispense_loop_list (g : globals) (prescriptions : list pyval) :
  forall acc l, snd (dispense_loop g prescriptions acc) = Ret l -> l = acc.
Proof.
  induction prescriptions as [| pres rest IH]; intros acc l H.
  - simpl in H. congruence.
  - destruct (py_getitem pres "din") as [din | e] eqn:Hdin.
    + destruct din;
        try (rewrite (dispense_loop_other g pres rest acc _ Hdin I) in H;
             apply IH; exact H).
      * destruct (din_to_motor g !! s) as [motor |] eqn:Hmotor.
        -- rewrite (dispense_loop_stocked g pres rest acc s motor Hdin Hmotor) in H.
           apply IH; exact H.
        -- rewrite (dispense_loop_absent g pres rest acc s Hdin Hmotor) in H.
           apply IH; exact H.
      * simpl in H. rewrite Hdin in H. discriminate.
      * simpl in H. rewrite Hdin in H. discriminate.
    + simpl in H. rewrite Hdin in H. discriminate.
Qed.

Lemma attempts_cons (din : string) (ev : event) (t : trace) :
  attempts din (ev :: t) =
  ((if is_attempt din ev then 1 else 0) + attempts din t)%nat.
Proof. unfold attempts. simpl. destruct (is_attempt din ev); reflexivity. Qed.

Lemma occurrences_cons (din : string) (pres : pyval) (rest : list pyval) :
  occurrences din (pres :: rest) =
  ((if names_din din pres then 1 else 0) + occurrences din rest)%nat.
Proof. unfold occurrences. simpl. destruct (names_din din pres); reflexivity. Qed.

Lemma dispense_loop_attempts (g : globals) (din : string)
    (prescriptions : list pyval) :
  forall acc l,
    snd (dispense_loop g prescriptions acc) = Ret l ->
    attempts din (fst (dispense_loop g prescriptions acc)) =
    if bool_decide (is_Some (din_to_motor g !! din))
    then occurrences din prescriptions else 0%nat.
Proof.
  induction prescriptions as [| pres rest IH]; intros acc l H.
  - simpl. destruct (bool_decide _); reflexivity.
  - rewrite occurrences_cons. unfold names_din.
    destruct (py_getitem pres "din") as [v | e] eqn:Hdin.
    + destruct v;
        try (rewrite (dispense_loop_other g pres rest acc _ Hdin I) in H |- *;
             rewrite (IH _ _ H); destruct (bool_decide _); reflexivity).
      * destruct (din_to_motor g !! s) as [motor |] eqn:Hmotor.
        -- rewrite (dispense_loop_stocked g pres rest acc s motor Hdin Hmotor) in H |- *.
           simpl fst. simpl in H. rewrite !attempts_cons. simpl.
           rewrite (IH _ _ H).
           destruct (String.eqb_spec s din) as [-> | Hne].
           ++ rewrite bool_decide_eq_true_2 by (rewrite Hmotor; eauto). reflexivity.
           ++ destruct (bool_decide _); reflexivity.
        -- rewrite (dispense_loop_absent g pres rest acc s Hdin Hmotor) in H |- *.
           rewrite (IH _ _ H).
           destruct (String.eqb_spec s din) as [-> | Hne].
           ++ rewrite bool_decide_eq_false_2
                by (rewrite Hmotor; intros [? ?]; discriminate).
              reflexivity.
           ++ destruct (bool_decide _); reflexivity.
      * simpl in H. rewrite Hdin in H. discriminate.
      * simpl in H. rewrite Hdin in H. discriminate.
    + simpl in H. rewrite Hdin in H. discriminate.
Qed.

(** ** The shape of one pass *)

Lemma main_step_split (g : globals) (sc : scenario) :
  main_step g sc = bind (acquire sc) (decide_and_dispense g sc).
Proof.
  unfold main_step, acquire, decide_and_dispense.
  generalize (on_match g sc) (auth_guard g). intros om guard.
  destruct (sc_pacing sc) as [[] | e0]; [| reflexivity].
  destruct (sc_read sc) as [[|] | e1]; [| reflexivity | reflexivity].
  destruct (sc_cvt sc) as [[] | e2]; [| reflexivity].
  destruct (sc_faces sc) as [[| n] | e3]; [reflexivity | | reflexivity].
  destruct (sc_encodings sc) as [[| f fs] | e4]; [reflexivity | | reflexivity].
  destruct (pack_fingerprint f) as [packed | e5] eqn:Hpack;
    [| cbn; rewrite Hpack; reflexivity].
  destruct (sc_session sc) as [[] | e6];
    [| cbn; rewrite Hpack; reflexivity].
  destruct (sc_get sc) as [[] | e7];
    [| cbn; rewrite Hpack; reflexivity].
  destruct (sc_json sc) as [resp | e8];
    [| cbn; rewrite Hpack; reflexivity].
  cbn. rewrite Hpack. cbn.
  destruct (guard resp) as [tg [[|] | eg]]; cbn; try reflexivity.
  destruct om as [tm rm]; cbn. reflexivity.
Qed.

Lemma acquire_quiet (sc : scenario) :
  Forall (fun ev => is_create_task ev = false /\ is_any_attempt ev = false)
         (fst (acquire sc)).
Proof.
  unfold acquire.
  destruct (sc_pacing sc) as [[] | e0]; [| repeat constructor].
  destruct (sc_read sc) as [[|] | e1]; [| repeat constructor | repeat constructor].
  destruct (sc_cvt sc) as [[] | e2]; [| repeat constructor].
  destruct (sc_faces sc) as [[| n] | e3]; [repeat constructor | | repeat constructor].
  destruct (sc_encodings sc) as [[| f fs] | e4];
    [repeat constructor | | repeat constructor].
  destruct (pack_fingerprint f) as [packed | e5] eqn:Hpack;
    [| cbn; rewrite Hpack; repeat constructor].
  destruct (sc_session sc) as [[] | e6];
    [| cbn; rewrite Hpack; repeat constructor].
  destruct (sc_get sc) as [[] | e7];
    [| cbn; rewrite Hpack; repeat constructor].
  destruct (sc_json sc) as [resp | e8];
    cbn; rewrite Hpack; repeat constructor.
Qed.

(** The response reaches the controller only as the value of [acquire]. *)
Lemma acquire_answer (sc : scenario) (r1 r2 : pyval)
    (k1 k2 : option pyval -> M unit) :
  k1 None = k2 None ->
  k1 (Some r1) = k2 (Some r2) ->
  bind (acquire (answer sc r1)) k1 = bind (acquire (answer sc r2)) k2.
Proof.
  intros Hnone Hsome. unfold acquire, answer. simpl.
  destruct (sc_pacing sc) as [[] | e0]; [| reflexivity].
  destruct (sc_read sc) as [[|] | e1];
    [| cbn; rewrite Hnone; reflexivity | reflexivity].
  destruct (sc_cvt sc) as [[] | e2]; [| reflexivity].
  destruct (sc_faces sc) as [[| n] | e3];
    [cbn; rewrite Hnone; reflexivity | | reflexivity].
  destruct (sc_encodings sc) as [[| f fs] | e4]; [reflexivity | | reflexivity].
  destruct (pack_fingerprint f) as [packed | e5] eqn:Hpack;
    [| cbn; rewrite Hpack; reflexivity].
  destruct (sc_session sc) as [[] | e6];
    [| cbn; rewrite Hpack; reflexivity].
  destruct (sc_get sc) as [[] | e7];
    [| cbn; rewrite Hpack; reflexivity].
  cbn. rewrite Hpack. cbn. rewrite Hsome. reflexivity.
Qed.

Lemma auth_guard_silent (g : globals) (response : pyval) :
  fst (auth_guard g response) = [].
Proof.
  unfold auth_guard, read_data.
  destruct (is_None response); [reflexivity |].
  destruct (data g) as [d |]; [| reflexivity]. cbn.
  destruct (py_get d "success") as [s | e]; [| reflexivity]. cbn.
  destruct (truthy s); [| reflexivity]. cbn.
  destruct (py_getitem d "version"); reflexivity.
Qed.

Lemma dispense_loop_no_task (g : globals) (prescriptions : list pyval) :
  forall acc,
    Forall (fun ev => is_create_task ev = false)
           (fst (dispense_loop g prescriptions acc)).
Proof.
  induction prescriptions as [| pres rest IH]; intros acc.
  - constructor.
  - destruct (py_getitem pres "din") as [v | e] eqn:Hdin.
    + destruct v;
        try (rewrite (dispense_loop_other g pres rest acc _ Hdin I); apply IH).
      * destruct (din_to_motor g !! s) as [motor |] eqn:Hmotor.
        -- rewrite (dispense_loop_stocked g pres rest acc s motor Hdin Hmotor).
           repeat constructor. apply IH.
        -- rewrite (dispense_loop_absent g pres rest acc s Hdin Hmotor). apply IH.
      * simpl. rewrite Hdin. constructor.
      * simpl. rewrite Hdin. constructor.
    + simpl. rewrite Hdin. constructor.
Qed.

Lemma report_nothing (env : report_env) (auth_token : pyval) :
  report_dispensed env auth_token [] =
  ([UtcNow; Sleep 30; Log INFO "No drug dispensing to report"], Ret true).
Proof. reflexivity. Qed.

(** On a match, either the token cannot be read and nothing else happens,
    or the report task is created on the empty list, runs, and the loop
    over the prescriptions follows. *)
Lemma on_match_cases (g : globals) (sc : scenario) :
  (exists e,
      on_match g sc =
      ([Log DEBUG "Authenticated and prescription data acquired"], Raise e))
  \/ (exists tok t r,
         on_match g sc =
         (Log DEBUG "Authenticated and prescription data acquired"
          :: CreateTask tok []
          :: UtcNow :: Sleep 30 :: Log INFO "No drug dispensing to report"
          :: t, r)
         /\ Forall (fun ev => is_create_task ev = false) t).
Proof.
  unfold on_match, read_data.
  destruct (data g) as [d |]; [| left; eexists; reflexivity].
  destruct (py_getitem d "id") as [tok | e] eqn:Hid;
    [| left; eexists; cbn; rewrite Hid; reflexivity].
  right. exists tok. cbn. rewrite Hid. cbn.
  destruct (py_getitem d "prescriptions") as [ps | e]; cbn;
    [| do 2 eexists; split; [reflexivity | constructor]].
  destruct (py_iter ps) as [items | e]; cbn;
    [| do 2 eexists; split; [reflexivity | constructor]].
  pose proof (dispense_loop_no_task g items []) as Hloop.
  destruct (dispense_loop g items []) as [tl [l | e]]; cbn in *;
    do 2 eexists; (split; [reflexivity |]).
  - rewrite app_nil_r. exact Hloop.
  - exact Hloop.
Qed.

(** The trace of a pass: events of the phases before the guard, then
    nothing, or the trace of the branch taken on a match. *)
Lemma main_step_trace (g : globals) (sc : scenario) :
  exists t0 t1,
    fst (main_step g sc) = (t0 ++ t1)%list
    /\ Forall (fun ev => is_create_task ev = false /\ is_any_attempt ev = false) t0
    /\ (t1 = []
        \/ t1 = [Log DEBUG "Authenticated and prescription data acquired"]
        \/ exists tok t,
            t1 = Log DEBUG "Authenticated and prescription data acquired"
                 :: CreateTask tok []
                 :: UtcNow :: Sleep 30 :: Log INFO "No drug dispensing to report"
                 :: t
            /\ Forall (fun ev => is_create_task ev = false) t).
Proof.
  rewrite main_step_split, bind_fst.
  pose proof (acquire_quiet sc) as Hquiet.
  destruct (acquire sc) as [t0 [[resp |] | e]]; simpl in *.
  - exists t0. rewrite bind_fst, auth_guard_silent.
    destruct (snd (auth_guard g resp)) as [[|] | e]; simpl.
    + destruct (on_match_cases g sc) as [[e He] | (tok & t & r & He & Ht)];
        rewrite He; simpl; eexists; (split; [reflexivity |]); split; eauto.
      right. right. exists tok, t. split; [reflexivity | exact Ht].
    + exists []. auto.
    + exists []. auto.
  - exists t0, []. auto.
  - exists t0, []. rewrite app_nil_r. auto.
Qed.

(** ** The supervising loop *)




Lemma main_loop_next (g : globals) (sc : scenario) (rest : list scenario) :
  snd (loop_pass g sc) = Ret tt ->
  main_loop g (sc :: rest) =
  ((fst (loop_pass g sc) ++ fst (main_loop g rest))%list, snd (main_loop g rest)).
Proof.
  intros H. simpl. destruct (loop_pass g sc) as [t r]. simpl in H. subst r.
  simpl. destruct (main_loop g rest); reflexivity.
Qed.

(** ** Dispensing *)

(** C5, as the code has it: for every drug identifier absent from
    [din_to_motor], [dispense] makes no actuation attempt and has no side
    effect, and the control loop skips a prescription of that drug without
    calling [dispense] and without an error: the loop goes on with the
    rest of the list. *)
Theorem absent_drug_is_skipped (g : globals) (din : string) :
  din_to_motor g !! din = None ->
  fst (dispense g din) = []
  /\ forall (items : list (string * pyval)) (rest : list pyval) (acc : list string),
      dict_lookup "din" items = Some (PStr din) ->
      dispense_loop g (PDict items :: rest) acc = dispense_loop g rest acc.
Proof.
  intros Habsent. split.
  - rewrite (dispense_absent g din Habsent). reflexivity.
  - intros items rest acc Hdin.
    apply (dispense_loop_absent g (PDict items) rest acc din); [| exact Habsent].
    simpl. rewrite Hdin. reflexivity.
Qed.

Lemma absent_drug_is_skipped_witness :
  fst (dispense (module_globals sample_cfg) "00000001") = []
  /\ forall (items : list (string * pyval)) (rest : list pyval) (acc : list string),
      dict_lookup "din" items = Some (PStr "00000001") ->
      dispense_loop (module_globals sample_cfg) (PDict items :: rest) acc
      = dispense_loop (module_globals sample_cfg) rest acc.
Proof.
  apply (absent_drug_is_skipped (module_globals sample_cfg) "00000001").
  vm_compute. reflexivity.
Defined.

(** C5 fails as stated: called on a drug that is not stocked, [dispense]
    raises [KeyError] and does not return false. *)
Lemma dispense_absent_raises :
  dispense (module_globals sample_cfg) "00000001" = ([], Raise KeyError)
  /\ snd (dispense (module_globals sample_cfg) "00000001") <> Ret false.
Proof. split; [vm_compute; reflexivity | vm_compute; discriminate]. Qed.

(** C10: for every drug identifier present in [din_to_motor], [dispense]
    returns false; so the list of dispensed drugs that the loop hands back
    is empty, every report task that a pass creates is created on the
    empty list, and on the empty list the report takes the branch "No drug
    dispensing to report". *)
Theorem dispense_never_succeeds (g : globals) (din motor : string) :
  din_to_motor g !! din = Some motor ->
  snd (dispense g din) = Ret false
  /\ (forall (prescriptions : list pyval) (l : list string),
         snd (dispense_loop g prescriptions []) = Ret l -> l = [])
  /\ (forall (sc : scenario) (tok : pyval) (drugs : list string),
         In (CreateTask tok drugs) (fst (main_step g sc)) ->
         drugs = []
         /\ report_dispensed (sc_report sc) tok drugs =
            ([UtcNow; Sleep 30; Log INFO "No drug dispensing to report"], Ret true)).
Proof.
  intros Hmotor. split; [| split].
  - rewrite (dispense_stocked g din motor Hmotor). reflexivity.
  - intros prescriptions l H. exact (dispense_loop_list g prescriptions [] l H).
  - intros sc tok drugs Hin.
    assert (drugs = []) as ->; [| split; [reflexivity | apply report_nothing]].
    destruct (main_step_trace g sc) as (t0 & t1 & Htrace & Hquiet & Hshape).
    rewrite Htrace in Hin. apply in_app_or in Hin. destruct Hin as [Hin | Hin].
    + rewrite List.Forall_forall in Hquiet. apply Hquiet in Hin.
      destruct Hin as [Hin _]. discriminate.
    + destruct Hshape as [-> | [-> | (tok' & t & -> & Ht)]].
      * contradiction.
      * destruct Hin as [Hin | []]. discriminate.
      * simpl in Hin.
        destruct Hin as [Hin | [Hin | [Hin | [Hin | [Hin | Hin]]]]];
          try discriminate.
        -- inversion Hin. reflexivity.
        -- rewrite List.Forall_forall in Ht. apply Ht in Hin. discriminate.
Qed.

Lemma dispense_never_succeeds_witness :
  snd (dispense (module_globals sample_cfg) "02242705") = Ret false
  /\ (forall (prescriptions : list pyval) (l : list string),
         snd (dispense_loop (module_globals sample_cfg) prescriptions []) = Ret l ->
         l = [])
  /\ (forall (sc : scenario) (tok : pyval) (drugs : list string),
         In (CreateTask tok drugs) (fst (main_step (module_globals sample_cfg) sc)) ->
         drugs = []
         /\ report_dispensed (sc_report sc) tok drugs =
            ([UtcNow; Sleep 30; Log INFO "No drug dispensing to report"], Ret true)).
Proof.
  apply (dispense_never_succeeds (module_globals sample_cfg) "02242705" "motor1").
  vm_compute. reflexivity.
Defined.

(** ** The report *)

(** C9, as the code has it: for every call of [report_dispensed] on the
    empty list, the call takes the clock, waits the delay of 30, logs that
    there is nothing to report and returns [True]; it opens no session and
    sends no request. *)
Theorem empty_report_waits_then_succeeds (env : report_env) (auth_token : pyval) :
  report_dispensed env auth_token [] =
  ([UtcNow; Sleep 30; Log INFO "No drug dispensing to report"], Ret true)
  /\ existsb is_network (fst (report_dispensed env auth_token [])) = false.
Proof. split; reflexivity. Qed.

(** C9 fails as stated: the report on the empty list does not succeed at
    once, it sleeps first. *)
Lemma empty_report_sleeps :
  existsb is_sleep (fst (report_dispensed quiet_report (PStr "token") [])) = true
  /\ In (Sleep 30) (fst (report_dispensed quiet_report (PStr "token") [])).
Proof. split; [reflexivity | right; left; reflexivity]. Qed.

(** ** Failure isolation *)




(** ** The module as it is written *)

Lemma attempts_app (din : string) (t1 t2 : trace) :
  attempts din (t1 ++ t2)%list = (attempts din t1 + attempts din t2)%nat.
Proof. unfold attempts. rewrite List.filter_app, List.length_app. reflexivity. Qed.

Lemma attempts_quiet (din : string) (t : trace) :
  List.Forall (fun ev => is_create_task ev = false /\ is_any_attempt ev = false) t ->
  attempts din t = 0%nat.
Proof.
  induction 1 as [| ev t [_ Hev] _ IH]; [reflexivity |].
  rewrite attempts_cons, IH. destruct ev; try discriminate; reflexivity.
Qed.

(** With the globals of the module, the guard raises [NameError] on every
    response other than [None]: the name [data] is not bound. *)
Lemma unbound_data_raises (cfg : gmap string string) (response : pyval) :
  is_None response = false ->
  auth_guard (module_globals cfg) response = ([], Raise NameError).
Proof. intros H. unfold auth_guard. rewrite H. reflexivity. Qed.

(** So a pass of the module as it is written makes no dispense attempt. *)
Lemma module_pass_never_dispenses (cfg : gmap string string) (sc : scenario)
    (din : string) :
  attempts din (fst (main_step (module_globals cfg) sc)) = 0%nat.
Proof.
  rewrite main_step_split, bind_fst.
  pose proof (acquire_quiet sc) as Hquiet.
  destruct (acquire sc) as [t0 [[response |] | e]]; simpl in *.
  - rewrite attempts_app, (attempts_quiet din t0 Hquiet).
    destruct (is_None response) eqn:Hnone.
    + unfold auth_guard. rewrite Hnone. reflexivity.
    + rewrite (unbound_data_raises cfg response Hnone). reflexivity.
  - rewrite app_nil_r. apply attempts_quiet, Hquiet.
  - apply attempts_quiet, Hquiet.
Qed.

(** ** Rounding in binary64 *)

Local Open Scope Z_scope.

Lemma digits2_pos_bounds (p : positive) :
  2 ^ (Zpos (digits2_pos p) - 1) <= Zpos p < 2 ^ Zpos (digits2_pos p).
Proof.
  induction p as [p IH | p IH |]; simpl digits2_pos.
  - rewrite Pos2Z.inj_succ. replace (Z.succ (Zpos (digits2_pos p)) - 1) with (Z.succ (Zpos (digits2_pos p) - 1)) by lia.
    rewrite !Z.pow_succ_r by lia. lia.
  - rewrite Pos2Z.inj_succ. replace (Z.succ (Zpos (digits2_pos p)) - 1) with (Z.succ (Zpos (digits2_pos p) - 1)) by lia.
    rewrite !Z.pow_succ_r by lia. lia.
  - simpl. lia.
Qed.

Lemma Zdigits2_upper (m : Z) : 0 <= m -> m < 2 ^ Zdigits2 m.
Proof.
  destruct m as [| p | p]; intros H; simpl; try lia.
  apply digits2_pos_bounds.
Qed.

Lemma Zdigits2_le (m j : Z) : 0 <= j -> 0 <= m < 2 ^ j -> Zdigits2 m <= j.
Proof.
  intros Hj [H0 H1]. destruct m as [| p | p]; simpl; try lia.
  destruct (digits2_pos_bounds p) as [Hlow _].
  destruct (Z_le_gt_dec (Zpos (digits2_pos p)) j) as [? | Hgt]; [assumption |].
  exfalso. assert (2 ^ j <= 2 ^ (Zpos (digits2_pos p) - 1)) by (apply Z.pow_le_mono_r; lia).
  lia.
Qed.

Lemma shr_1_m (mrs : shr_record) :
  0 <= shr_m mrs -> shr_m (shr_1 mrs) = shr_m mrs / 2.
Proof.
  destruct mrs as [m r s]. simpl. intros H.
  destruct m as [| [p | p |] | p]; simpl; try lia; try reflexivity.
  - rewrite Pos2Z.inj_xI. apply Z.div_unique with (r := 1); lia.
  - rewrite Pos2Z.inj_xO. apply Z.div_unique with (r := 0); lia.
Qed.

Lemma pow2_xO (p : positive) : 2 ^ Zpos p~0 = 2 ^ Zpos p * 2 ^ Zpos p.
Proof. rewrite Pos2Z.inj_xO, <- Z.pow_add_r by lia. f_equal. lia. Qed.

Lemma pow2_xI (p : positive) : 2 ^ Zpos p~1 = 2 * 2 ^ Zpos p * 2 ^ Zpos p.
Proof.
  rewrite Pos2Z.inj_xI. replace (2 * Zpos p + 1) with (1 + Zpos p + Zpos p) by lia.
  rewrite !Z.pow_add_r by lia. reflexivity.
Qed.

Lemma iter_shr_1_m (p : positive) :
  forall mrs, 0 <= shr_m mrs ->
    0 <= shr_m (SpecFloat.iter_pos shr_1 p mrs)
    /\ shr_m (SpecFloat.iter_pos shr_1 p mrs) = shr_m mrs / 2 ^ Zpos p.
Proof.
  assert (Hpos : forall q, 0 < 2 ^ Zpos q) by (intros q; apply Z.pow_pos_nonneg; lia).
  induction p as [p IH | p IH |]; intros mrs H; simpl SpecFloat.iter_pos.
  - assert (H1 : 0 <= shr_m (shr_1 mrs)) by (rewrite shr_1_m by assumption; apply Z.div_pos; lia).
    destruct (IH _ H1) as [H2 E2]. destruct (IH _ H2) as [H3 E3].
    split; [assumption |].
    rewrite E3, E2, shr_1_m by assumption.
    specialize (Hpos p).
    rewrite !Z.div_div by lia. rewrite pow2_xI. f_equal. ring.
  - destruct (IH _ H) as [H2 E2]. destruct (IH _ H2) as [H3 E3].
    split; [assumption |].
    rewrite E3, E2. specialize (Hpos p).
    rewrite !Z.div_div by lia. rewrite pow2_xO. f_equal.
  - rewrite shr_1_m by assumption. split; [apply Z.div_pos; lia | reflexivity].
Qed.

Lemma shr_spec (mrs : shr_record) (e n : Z) :
  0 <= shr_m mrs ->
  shr_m (fst (shr mrs e n)) = shr_m mrs / 2 ^ Z.max 0 n
  /\ snd (shr mrs e n) = e + Z.max 0 n.
Proof.
  intros H. destruct n as [| p | p]; simpl.
  - rewrite Z.div_1_r. lia.
  - destruct (iter_shr_1_m p mrs H) as [_ E]. rewrite E. split; reflexivity.
  - rewrite Z.div_1_r. lia.
Qed.

Lemma shr_fexp_spec (m e : Z) (l : location) :
  0 <= m ->
  shr_m (fst (shr_fexp 53 1024 m e l))
  = m / 2 ^ Z.max 0 (fexp 53 1024 (Zdigits2 m + e) - e)
  /\ snd (shr_fexp 53 1024 m e l)
     = e + Z.max 0 (fexp 53 1024 (Zdigits2 m + e) - e).
Proof.
  intros H. unfold shr_fexp.
  assert (Hm : shr_m (shr_record_of_loc m l) = m) by (destruct l as [| []]; reflexivity).
  destruct (shr_spec (shr_record_of_loc m l) e
              (fexp 53 1024 (Zdigits2 m + e) - e)) as [E1 E2];
    [rewrite Hm; assumption |].
  rewrite Hm in E1. split; assumption.
Qed.

Lemma round_nearest_even_bounds (m : Z) (l : location) :
  m <= round_nearest_even m l <= m + 1.
Proof.
  destruct l as [| []]; simpl; try lia. destruct (Z.even m); lia.
Qed.

(** The result of rounding [M * 2^E], for a positive [M]. *)
Lemma binary_round_aux_spec (s : bool) (M E : Z) :
  0 < M ->
  exists n1 r n2,
    n1 = Z.max 0 (fexp 53 1024 (Zdigits2 M + E) - E)
    /\ M / 2 ^ n1 <= r <= M / 2 ^ n1 + 1
    /\ n2 = Z.max 0 (fexp 53 1024 (Zdigits2 r + (E + n1)) - (E + n1))
    /\ binary_round_aux 53 1024 s M E loc_Exact =
       match r / 2 ^ n2 with
       | Z0 => S754_zero s
       | Zpos m =>
           if E + n1 + n2 <=? 1024 - 53 then S754_finite s m (E + n1 + n2)
           else S754_infinity s
       | Zneg _ => S754_nan
       end.
Proof.
  intros HM. unfold binary_round_aux.
  destruct (shr_fexp_spec M E loc_Exact) as [E1 E2]; [lia |].
  destruct (shr_fexp 53 1024 M E loc_Exact) as [mrs1 e1]. simpl in E1, E2.
  set (n1 := Z.max 0 (fexp 53 1024 (Zdigits2 M + E) - E)) in *.
  set (r := round_nearest_even (shr_m mrs1) (loc_of_shr_record mrs1)).
  assert (Hr : M / 2 ^ n1 <= r <= M / 2 ^ n1 + 1).
  { rewrite <- E1. apply round_nearest_even_bounds. }
  assert (H0 : 0 <= M / 2 ^ n1).
  { apply Z.div_pos; [lia | apply Z.pow_pos_nonneg; lia]. }
  destruct (shr_fexp_spec r e1 loc_Exact) as [E3 E4]; [lia |].
  destruct (shr_fexp 53 1024 r e1 loc_Exact) as [mrs2 e2]. simpl in E3, E4.
  exists n1, r, (Z.max 0 (fexp 53 1024 (Zdigits2 r + (E + n1)) - (E + n1))).
  subst e1. repeat split; try lia.
  rewrite E3, E4. reflexivity.
Qed.

(** ** The product with the scale *)

Lemma scale_value : scale = S754_finite false 9007199254740991 (-38).
Proof. vm_compute. reflexivity. Qed.

Lemma fexp_unfold (k : Z) : fexp 53 1024 k = Z.max (k - 53) (-1074).
Proof. reflexivity. Qed.

Lemma floor_finite (s : bool) (m : positive) (e : Z) :
  e <= 0 ->
  F64.floor (S754_finite s m e) = cond_Zopp s (Zpos m) / 2 ^ (- e).
Proof.
  intros He. unfold F64.floor.
  replace e with (- (- e)) at 1 by lia.
  rewrite Z.shiftl_opp_r. apply Z.shiftr_div_pow2. lia.
Qed.

(** Truncating twice and rounding up once in between: the mantissa [m2]
    that is left after shifts by [A] and then [B]. *)
Lemma two_shifts (M A B r : Z) :
  0 <= M -> 0 < A -> 0 < B ->
  M / A <= r <= M / A + 1 ->
  r / B * (A * B) <= M + A /\ M < (r / B + 1) * (A * B).
Proof.
  intros HM HA HB Hr.
  pose proof (Z.mul_div_le M A HA) as H1.
  pose proof (Z.mul_succ_div_gt M A HA) as H2.
  pose proof (Z.mul_div_le r B HB) as H3.
  pose proof (Z.mul_succ_div_gt r B HB) as H4.
  set (m1 := M / A) in *. set (m2 := r / B) in *.
  split.
  - assert (B * m2 * A <= (m1 + 1) * A)
      by (apply Z.mul_le_mono_nonneg_r; lia).
    lia.
  - assert (m1 + 1 <= B * (m2 + 1)) by lia.
    assert ((m1 + 1) * A <= B * (m2 + 1) * A)
      by (apply Z.mul_le_mono_nonneg_r; lia).
    lia.
Qed.

(** The floor of a non-negative result, against the exact product [M]. *)
Lemma floor_bounds_pos (P K A M m2 : Z) :
  0 < P -> 0 < A <= K -> 0 <= m2 ->
  m2 * K <= M + A -> M < (m2 + 1) * K ->
  M + A < 32768 * (P * K) ->
  0 <= m2 / P <= 32767
  /\ m2 / P * (P * K) - P * K <= M <= m2 / P * (P * K) + P * K.
Proof.
  intros HP HA Hm2 Hup Hlow Hmax.
  pose proof (Z.mul_div_le m2 P HP) as H1.
  pose proof (Z.mul_succ_div_gt m2 P HP) as H2.
  set (q := m2 / P) in *.
  assert (Hq0 : 0 <= q) by (apply Z.div_pos; lia).
  assert (H3 : P * q * K <= m2 * K) by (apply Z.mul_le_mono_nonneg_r; lia).
  assert (H4 : (m2 + 1) * K <= P * (q + 1) * K)
    by (apply Z.mul_le_mono_nonneg_r; lia).
  assert (H5 : 1 * K <= P * K) by (apply Z.mul_le_mono_nonneg_r; lia).
  assert (H6 : q < 32768).
  { apply (Z.mul_lt_mono_pos_r (P * K)); [apply Z.mul_pos_pos; lia | lia]. }
  lia.
Qed.

(** The floor of a non-positive result, against the exact product [- M]. *)
Lemma floor_bounds_neg (P K A M m2 : Z) :
  0 < P -> 0 < A <= K -> 0 <= m2 -> 0 <= M ->
  m2 * K <= M + A -> M < (m2 + 1) * K ->
  M + A < 32768 * (P * K) ->
  -32768 <= (- m2) / P <= 32767
  /\ (- m2) / P * (P * K) - P * K <= - M <= (- m2) / P * (P * K) + P * K.
Proof.
  intros HP HA Hm2 HM Hup Hlow Hmax.
  pose proof (Z.mul_div_le (- m2) P HP) as H1.
  pose proof (Z.mul_succ_div_gt (- m2) P HP) as H2.
  set (q := (- m2) / P) in *.
  assert (Hq0 : q <= 0).
  { destruct (Z_le_gt_dec q 0) as [? | Hgt]; [assumption |].
    assert (P * 1 <= P * q) by (apply Z.mul_le_mono_nonneg_l; lia). lia. }
  assert (H3 : (m2 + 1) * K <= (1 - P * q) * K)
    by (apply Z.mul_le_mono_nonneg_r; lia).
  assert (H4 : (1 - P * (q + 1)) * K <= m2 * K)
    by (apply Z.mul_le_mono_nonneg_r; lia).
  assert (H5 : 1 * K <= P * K) by (apply Z.mul_le_mono_nonneg_r; lia).
  assert (H6 : - (q + 1) < 32768).
  { apply (Z.mul_lt_mono_pos_r (P * K)); [apply Z.mul_pos_pos; lia | lia]. }
  lia.
Qed.

(** The product of a double of magnitude below 1 with the scale: its floor
    fits 16 bits and is within 1 of the exact product
    [m * (2^53 - 1) * 2^(e - 38)]. *)
Lemma mul_scale_bounds (s : bool) (m : positive) (e : Z) :
  Zpos m < 9007199254740992 ->
  -1074 <= e <= -53 ->
  (-32768 <= F64.floor (F64.mul (S754_finite s m e) scale) <= 32767)
  /\ (F64.floor (F64.mul (S754_finite s m e) scale) * 2 ^ (38 - e) - 2 ^ (38 - e)
      <= cond_Zopp s (Zpos m * 9007199254740991)
      <= F64.floor (F64.mul (S754_finite s m e) scale) * 2 ^ (38 - e) + 2 ^ (38 - e)).
Proof.
  intros Hm He. rewrite scale_value. unfold F64.mul, F64.prec, F64.emax, SFmul.
  rewrite xorb_false_r.
  change (Zpos (m * 9007199254740991)) with (Zpos m * 9007199254740991).
  set (M := Zpos m * 9007199254740991). set (E := e + -38).
  assert (HM : 0 < M) by (unfold M; lia).
  assert (HM2 : M <= 81129638414606663681390495662081) by (unfold M; lia).
  destruct (binary_round_aux_spec s M E HM) as (n1 & r & n2 & Hn1 & Hr & Hn2 & Hres).
  rewrite Hres. clear Hres.
  rewrite fexp_unfold in Hn1, Hn2.
  assert (Hd : Zdigits2 M <= 106).
  { apply Zdigits2_le; [lia |]. split; [lia |].
    change (2 ^ 106) with 81129638414606681695789005144064. lia. }
  assert (Hd0 : 0 <= Zdigits2 M) by (destruct M; simpl; lia).
  assert (Hn1b : 0 <= n1 <= 53) by (unfold E in *; lia).
  assert (Hn1d : Zdigits2 M <= n1 + 53) by lia.
  assert (He1 : -1074 <= E + n1 <= -38) by (unfold E in *; lia).
  assert (HA : 0 < 2 ^ n1) by (apply Z.pow_pos_nonneg; lia).
  assert (Hdiv : 0 <= M / 2 ^ n1 < 2 ^ 53).
  { split; [apply Z.div_pos; lia |].
    apply Z.div_lt_upper_bound; [lia |].
    rewrite <- Z.pow_add_r by lia.
    apply Z.lt_le_trans with (2 ^ Zdigits2 M); [apply Zdigits2_upper; lia |].
    apply Z.pow_le_mono_r; lia. }
  change (2 ^ 53) with 9007199254740992 in Hdiv.
  assert (Hdr : Zdigits2 r <= 54).
  { apply Zdigits2_le; [lia |].
    change (2 ^ 54) with 18014398509481984. lia. }
  assert (Hdr0 : 0 <= Zdigits2 r) by (destruct r; simpl; lia).
  assert (Hn2b : 0 <= n2 <= 1) by lia.
  assert (He2 : E + n1 + n2 <= -37) by lia.
  assert (HB : 0 < 2 ^ n2) by (apply Z.pow_pos_nonneg; lia).
  assert (HP : 0 < 2 ^ (- (E + n1 + n2))) by (apply Z.pow_pos_nonneg; lia).
  assert (HD : 2 ^ (38 - e) = 2 ^ (- (E + n1 + n2)) * (2 ^ n1 * 2 ^ n2)).
  { rewrite <- !Z.pow_add_r by lia. f_equal. unfold E. lia. }
  assert (HD91 : 2475880078570760549798248448 <= 2 ^ (38 - e)).
  { change 2475880078570760549798248448 with (2 ^ 91).
    apply Z.pow_le_mono_r; lia. }
  assert (HA53 : 2 ^ n1 <= 9007199254740992).
  { change 9007199254740992 with (2 ^ 53). apply Z.pow_le_mono_r; lia. }
  assert (HAK : 2 ^ n1 <= 2 ^ n1 * 2 ^ n2).
  { rewrite <- (Z.mul_1_r (2 ^ n1)) at 1. apply Z.mul_le_mono_nonneg_l; lia. }
  rewrite HD in HD91 |- *. clear HD.
  destruct (two_shifts M (2 ^ n1) (2 ^ n2) r) as [Hup Hlow]; try lia.
  assert (Hm2 : 0 <= r / 2 ^ n2) by (apply Z.div_pos; lia).
  set (A := 2 ^ n1) in *. set (B := 2 ^ n2) in *.
  set (P := 2 ^ (- (E + n1 + n2))) in *.
  assert (Hmax : M + A < 32768 * (P * (A * B))) by lia.
  pose proof (floor_bounds_pos P (A * B) A M (r / B)
                HP (conj HA HAK) Hm2 Hup Hlow Hmax) as Hpos.
  pose proof (floor_bounds_neg P (A * B) A M (r / B)
                HP (conj HA HAK) Hm2 (Z.lt_le_incl _ _ HM) Hup Hlow Hmax) as Hneg.
  destruct (r / B) as [| p | p] eqn:Em2; [| | lia].
  - change (F64.floor (S754_zero s)) with 0.
    change (- 0) with 0 in Hneg. rewrite Zdiv_0_l in Hpos, Hneg.
    destruct s; simpl cond_Zopp; lia.
  - replace (E + n1 + n2 <=? 1024 - 53) with true
      by (symmetry; apply Z.leb_le; lia).
    rewrite floor_finite by lia. fold P.
    destruct s; simpl cond_Zopp; [exact Hneg | lia].
Qed.

(** ** Comparisons in binary64 *)

Lemma SFcompare_swap (x y : spec_float) :
  SFcompare y x = option_map CompOpp (SFcompare x y).
Proof.
  destruct x as [sx | sx | | sx mx ex], y as [sy | sy | | sy my ey];
    try reflexivity;
    try (destruct sx; reflexivity);
    try (destruct sy; reflexivity);
    try (destruct sx, sy; reflexivity).
  destruct sx, sy; simpl; try reflexivity.
  - rewrite (Z.compare_antisym ex ey).
    destruct (ex ?= ey); simpl; try reflexivity.
    rewrite (Pos.compare_cont_antisym mx my Eq). simpl.
    destruct (Pos.compare_cont Eq mx my); reflexivity.
  - rewrite (Z.compare_antisym ex ey).
    destruct (ex ?= ey); simpl; try reflexivity.
    rewrite (Pos.compare_cont_antisym mx my Eq). reflexivity.
Qed.

Lemma SFcompare_defined (x y : spec_float) :
  F64.is_nan x = false -> F64.is_nan y = false ->
  exists c, SFcompare x y = Some c.
Proof.
  destruct x, y; simpl; intros Hx Hy; try discriminate; eexists; reflexivity.
Qed.

Lemma leb_false_ltb (x y : spec_float) :
  F64.is_nan x = false -> F64.is_nan y = false ->
  F64.leb x y = false -> F64.ltb y x = true.
Proof.
  intros Hx Hy. unfold F64.leb, F64.ltb, SFleb, SFltb.
  rewrite (SFcompare_swap x y).
  destruct (SFcompare_defined x y Hx Hy) as [c ->]. simpl.
  destruct c; simpl; intros H; congruence.
Qed.

Lemma leb_true_ltb (x y : spec_float) :
  F64.leb x y = true -> F64.ltb y x = false.
Proof.
  unfold F64.leb, F64.ltb, SFleb, SFltb. rewrite (SFcompare_swap x y).
  destruct (SFcompare x y) as [[| |] |]; simpl; intros H; congruence.
Qed.

(** ** Doubles in the unit range *)

Lemma one_value : F64.of_Z 1 = S754_finite false 4503599627370496 (-52).
Proof. reflexivity. Qed.

Lemma minus_one_value : F64.of_Z (-1) = S754_finite true 4503599627370496 (-52).
Proof. reflexivity. Qed.

Lemma valid_finite (s : bool) (m : positive) (e : Z) :
  F64.valid (S754_finite s m e) = true ->
  Zpos m < 9007199254740992 /\ -1074 <= e
  /\ (-1074 < e -> 4503599627370496 <= Zpos m).
Proof.
  unfold F64.valid, valid_binary, bounded, canonical_mantissa, F64.prec, F64.emax.
  intros H. apply andb_true_iff in H. destruct H as [H _].
  apply Z.eqb_eq in H. change (fexp 53 1024) with (fun k => Z.max (k - 53) (-1074)) in H.
  cbv beta in H.
  destruct (digits2_pos_bounds m) as [Hlow Hup].
  assert (Hd : Zpos (digits2_pos m) <= 53) by lia.
  repeat split; try lia.
  - apply Z.lt_le_trans with (2 ^ Zpos (digits2_pos m)); [assumption |].
    change 9007199254740992 with (2 ^ 53). apply Z.pow_le_mono_r; lia.
  - intros He. assert (Zpos (digits2_pos m) = 53) as Hd53 by lia.
    rewrite Hd53 in Hlow. exact Hlow.
Qed.

Lemma SFleb_nonneg (m1 m2 : positive) (e1 e2 : Z) :
  SFleb (S754_finite false m1 e1) (S754_finite false m2 e2) = true ->
  e1 < e2 \/ (e1 = e2 /\ Zpos m1 <= Zpos m2).
Proof.
  unfold SFleb, SFcompare.
  destruct (Z.compare_spec e1 e2) as [He | He | He]; [| left; lia | discriminate].
  intros H. right. split; [assumption |].
  change (Pos.compare_cont Eq m1 m2) with (Pos.compare m1 m2) in H.
  destruct (Pos.compare_spec m1 m2) as [Hc | Hc | Hc]; [| | discriminate].
  - rewrite Hc. apply Z.le_refl.
  - apply Z.lt_le_incl, Pos2Z.pos_lt_pos, Hc.
Qed.

Lemma SFleb_neg (m1 m2 : positive) (e1 e2 : Z) :
  SFleb (S754_finite true m1 e1) (S754_finite true m2 e2) = true ->
  e2 < e1 \/ (e1 = e2 /\ Zpos m2 <= Zpos m1).
Proof.
  unfold SFleb, SFcompare.
  destruct (Z.compare_spec e1 e2) as [He | He | He]; [| discriminate | left; lia].
  intros H. right. split; [assumption |].
  change (Pos.compare_cont Eq m1 m2) with (Pos.compare m1 m2) in H.
  destruct (Pos.compare_spec m1 m2) as [Hc | Hc | Hc]; [| discriminate |].
  - rewrite Hc. apply Z.le_refl.
  - apply Z.lt_le_incl, Pos2Z.pos_lt_pos, Hc.
Qed.

(** A valid double of the unit range is a zero, plus or minus one, or a
    double of magnitude below one, whose exponent is at most -53. *)
Lemma in_unit_range_cases (x : spec_float) :
  F64.valid x = true ->
  in_unit_range x = true ->
  (exists s, x = S754_zero s)
  \/ (exists s, x = S754_finite s 4503599627370496 (-52))
  \/ (exists s m e, x = S754_finite s m e
                    /\ Zpos m < 9007199254740992 /\ -1074 <= e <= -53).
Proof.
  intros Hvalid Hrange. unfold in_unit_range in Hrange.
  apply andb_true_iff in Hrange. destruct Hrange as [Hlo Hhi].
  destruct x as [s | s | | s m e].
  - left. exists s. reflexivity.
  - destruct s; discriminate.
  - discriminate.
  - right. destruct (valid_finite s m e Hvalid) as (Hm & He & Hnormal).
    clear Hvalid.
    unfold F64.leb in Hlo, Hhi. rewrite one_value in Hhi.
    rewrite minus_one_value in Hlo.
    assert (Hcases : e < -52 \/ (e = -52 /\ Zpos m <= 4503599627370496)).
    { destruct s.
      - clear Hhi. apply SFleb_neg in Hlo. lia.
      - clear Hlo. apply SFleb_nonneg in Hhi. lia. }
    clear Hlo Hhi.
    destruct Hcases as [He52 | [He52 Hm52]].
    + right. exists s, m, e. repeat split; lia.
    + left. exists s. subst e.
      assert (Zpos m = 4503599627370496) as Hmeq by (specialize (Hnormal ltac:(lia)); lia).
      injection Hmeq as ->. reflexivity.
Qed.

(** ** One element of the packed fingerprint *)

Lemma scale_Q_value : (scale_Q == 9007199254740991 # 274877906944)%Q.
Proof. reflexivity. Qed.

Lemma scale_to_Q : (F64.to_Q scale == scale_Q)%Q.
Proof. reflexivity. Qed.

Lemma floor_mul_scale_range (x : spec_float) :
  F64.valid x = true ->
  in_unit_range x = true ->
  -32768 <= F64.floor (F64.mul x scale) <= 32767.
Proof.
  intros Hvalid Hrange.
  destruct (in_unit_range_cases x Hvalid Hrange)
    as [[s ->] | [[s ->] | (s & m & e & -> & Hm & He)]].
  - destruct s; vm_compute; split; discriminate.
  - destruct s; vm_compute; split; discriminate.
  - apply (mul_scale_bounds s m e Hm He).
Qed.

Lemma floor_mul_scale_close (x : spec_float) :
  F64.valid x = true ->
  in_unit_range x = true ->
  (Qabs (inject_Z (F64.floor (F64.mul x scale)) - F64.to_Q x * scale_Q) <= 1)%Q.
Proof.
  intros Hvalid Hrange.
  destruct (in_unit_range_cases x Hvalid Hrange)
    as [[s ->] | [[s ->] | (s & m & e & -> & Hm & He)]].
  - destruct s; vm_compute; discriminate.
  - destruct s; vm_compute; discriminate.
  - destruct (mul_scale_bounds s m e Hm He) as [_ Hclose].
    set (q := F64.floor (F64.mul (S754_finite s m e) scale)) in *.
    assert (Hpow : 0 < 2 ^ (- e)) by (apply Z.pow_pos_nonneg; lia).
    replace (2 ^ (38 - e)) with (2 ^ (- e) * 274877906944) in Hclose
      by (change 274877906944 with (2 ^ 38); rewrite <- Z.pow_add_r by lia;
          f_equal; lia).
    unfold F64.to_Q. replace (0 <=? e) with false by (symmetry; apply Z.leb_gt; lia).
    rewrite scale_Q_value.
    apply Qabs_Qle_condition.
    unfold Qle, Qminus, Qplus, Qopp, Qmult, inject_Z. cbn [Qnum Qden].
    rewrite !Pos2Z.inj_mul, !Z2Pos.id by assumption.
    destruct s; simpl cond_Zopp in *; split; lia.
Qed.

(** ** Bytes of the packed fingerprint *)

Lemma to_int16_id (z : Z) : -32768 <= z <= 32767 -> to_int16 z = z.
Proof.
  intros H. unfold to_int16. rewrite Z.mod_small by lia. lia.
Qed.

Lemma int16_of_le16 (z : Z) :
  -32768 <= z <= 32767 ->
  int16_of_le (z mod 256) ((z / 256) mod 256) = z.
Proof.
  intros H. unfold int16_of_le, to_int16.
  rewrite <- (Z.rem_mul_r z 256 256) by lia.
  change (256 * 256) with 65536.
  destruct (Z_lt_le_dec z 0) as [Hneg | Hpos].
  - replace (z mod 65536) with (z + 65536)
      by (apply Z.mod_unique with (q := -1); lia).
    replace (z + 65536 + 32768) with (z + 32768 + 1 * 65536) by lia.
    rewrite Z.mod_add by lia. rewrite Z.mod_small by lia. lia.
  - rewrite (Z.mod_small z) by lia. rewrite Z.mod_small by lia. lia.
Qed.

Lemma decode_le16_pack (zs : list Z) :
  Forall (fun z => -32768 <= z <= 32767) zs ->
  decode_le16 (flat_map le16 zs) = zs.
Proof.
  induction 1 as [| z zs Hz _ IH]; [reflexivity |].
  simpl. rewrite IH, (int16_of_le16 z Hz). reflexivity.
Qed.

Lemma length_pack (zs : list Z) :
  List.length (flat_map le16 zs) = (2 * List.length zs)%nat.
Proof. induction zs as [| z zs IH]; simpl; [reflexivity | rewrite IH; lia]. Qed.

Lemma bytes_pack (zs : list Z) :
  Forall (fun b => 0 <= b < 256) (flat_map le16 zs).
Proof.
  induction zs as [| z zs IH]; simpl; [constructor |].
  constructor; [apply Z.mod_pos_bound; lia |].
  constructor; [apply Z.mod_pos_bound; lia | exact IH].
Qed.

(** ** The codec on valid vectors *)

Lemma valid_vector_elements (v : list spec_float) :
  valid_vector v = true ->
  List.length v = 128%nat
  /\ Forall (fun x => F64.valid x = true /\ in_unit_range x = true) v.
Proof.
  unfold valid_vector. intros H. apply andb_true_iff in H. destruct H as [Hlen Hall].
  apply Z.eqb_eq in Hlen. split; [lia |].
  rewrite forallb_forall in Hall. apply List.Forall_forall. intros x Hx.
  apply andb_true_iff. apply Hall. exact Hx.
Qed.

Lemma quantize_in_range (x : spec_float) :
  F64.valid x = true -> in_unit_range x = true ->
  quantize x = F64.floor (F64.mul x scale).
Proof.
  intros Hvalid Hrange. unfold quantize.
  apply to_int16_id, floor_mul_scale_range; assumption.
Qed.

Lemma no_element_above (v : list spec_float) :
  Forall (fun x => F64.valid x = true /\ in_unit_range x = true) v ->
  existsb (fun x => F64.ltb (F64.of_Z 1) x) v = false
  /\ existsb (fun x => F64.ltb x (F64.of_Z (-1))) v = false.
Proof.
  induction 1 as [| x v [_ Hx] _ [IH1 IH2]]; [split; reflexivity |].
  unfold in_unit_range in Hx. apply andb_true_iff in Hx. destruct Hx as [Hlo Hhi].
  cbn [existsb]. rewrite IH1, IH2, (leb_true_ltb _ _ Hhi), (leb_true_ltb _ _ Hlo).
  split; reflexivity.
Qed.

Lemma pack_fingerprint_valid (v : list spec_float) :
  valid_vector v = true ->
  pack_fingerprint v =
  Ret (flat_map le16 (map (fun x => F64.floor (F64.mul x scale)) v)).
Proof.
  intros Hv. destruct (valid_vector_elements v Hv) as [Hlen Hall].
  destruct (no_element_above v Hall) as [H1 H2].
  unfold pack_fingerprint. rewrite H1, H2.
  replace (F64.leb (F64.of_Z 1) scale0) with false by reflexivity.
  unfold struct_pack_128h. rewrite length_map, Hlen. simpl Z.eqb. cbv iota.
  do 2 f_equal. apply map_ext_in. intros x Hx.
  rewrite List.Forall_forall in Hall. destruct (Hall x Hx) as [Ha Hb].
  apply quantize_in_range; assumption.
Qed.

(** ** The codec *)

(** For every input vector that holds a number, not a NaN, outside the
    closed interval [[-1, 1]], [pack_fingerprint] raises [ValueError], the
    range error of the codec, and returns no bytes. *)
Theorem out_of_range_is_rejected (v : list spec_float) (x : spec_float) :
  In x v ->
  F64.is_nan x = false ->
  in_unit_range x = false ->
  exists msg, pack_fingerprint v = Raise (ValueError msg).
Proof.
  intros Hin Hnan Hrange. unfold pack_fingerprint.
  destruct (existsb (fun y => F64.ltb (F64.of_Z 1) y) v) eqn:Habove;
    [eexists; reflexivity |].
  assert (Hbelow : existsb (fun y => F64.ltb y (F64.of_Z (-1))) v = true).
  { apply existsb_exists. exists x. split; [exact Hin |].
    unfold in_unit_range in Hrange. apply andb_false_iff in Hrange.
    destruct Hrange as [Hlo | Hhi].
    - apply leb_false_ltb; [reflexivity | exact Hnan | exact Hlo].
    - exfalso.
      assert (F64.ltb (F64.of_Z 1) x = true) as Hlt
        by (apply leb_false_ltb; [exact Hnan | reflexivity | exact Hhi]).
      assert (existsb (fun y => F64.ltb (F64.of_Z 1) y) v = true) as Hex
        by (apply existsb_exists; exists x; split; assumption).
      congruence. }
  rewrite Hbelow. eexists; reflexivity.
Qed.

Lemma out_of_range_is_rejected_witness :
  exists msg, pack_fingerprint high_vector = Raise (ValueError msg).
Proof.
  apply (out_of_range_is_rejected high_vector one_and_a_half).
  - left. reflexivity.
  - reflexivity.
  - reflexivity.
Defined.

(** C6, on the code as it is written: a NaN lies outside the interval
    [[-1, 1]], yet the vector [nan_vector], whose first element is a NaN,
    passes both tests of [pack_fingerprint], reaches the packing and comes
    back as 256 bytes: no [ValueError] is raised. *)
Theorem nan_vector_reaches_the_packing :
  In S754_nan nan_vector
  /\ in_unit_range S754_nan = false
  /\ exists bs,
      pack_fingerprint nan_vector = Ret bs /\ List.length bs = 256%nat.
Proof.
  split; [left; reflexivity |]. split; [reflexivity |].
  eexists. split; [vm_compute; reflexivity | reflexivity].
Qed.

(** C7: for every vector [v] of 128 doubles in [[-1, 1]],
    [pack_fingerprint v] returns exactly 256 bytes that hold, in the order
    of the vector and in little-endian order, 128 signed 16-bit integers,
    the i-th being the floor of the product of [v_i] and the scale, where
    the scale is the double [(1 - 2^-53) * 2^15]; an element that is 1.0
    gives 32767, the top of the positive range, and the vector of zeros
    gives 256 zero bytes. *)
Theorem pack_valid_vector (v : list spec_float) :
  valid_vector v = true ->
  exists bs,
    pack_fingerprint v = Ret bs
    /\ List.length bs = 256%nat
    /\ Forall (fun b => 0 <= b < 256) bs
    /\ decode_le16 bs = map (fun x => F64.floor (F64.mul x scale)) v
    /\ Forall (fun z => -32768 <= z <= 32767) (decode_le16 bs)
    /\ (F64.to_Q scale == scale_Q)%Q
    /\ (forall i, nth_error v i = Some (F64.of_Z 1) ->
                  nth_error (decode_le16 bs) i = Some 32767)
    /\ (v = zero_vector -> bs = repeat 0 256).
Proof.
  intros Hv. destruct (valid_vector_elements v Hv) as [Hlen Hall].
  assert (Hrange : Forall (fun z => -32768 <= z <= 32767)
                          (map (fun x => F64.floor (F64.mul x scale)) v)).
  { apply List.Forall_forall. intros z Hz. apply in_map_iff in Hz.
    destruct Hz as (x & <- & Hx). rewrite List.Forall_forall in Hall.
    destruct (Hall x Hx). apply floor_mul_scale_range; assumption. }
  exists (flat_map le16 (map (fun x => F64.floor (F64.mul x scale)) v)).
  rewrite (decode_le16_pack _ Hrange).
  split; [apply pack_fingerprint_valid; exact Hv |].
  split; [rewrite length_pack, length_map, Hlen; reflexivity |].
  split; [apply bytes_pack |].
  split; [reflexivity |].
  split; [exact Hrange |].
  split; [apply scale_to_Q |].
  split.
  - intros i Hi. rewrite nth_error_map, Hi. reflexivity.
  - intros ->. vm_compute. reflexivity.
Qed.

Lemma pack_valid_vector_witness :
  exists bs,
    pack_fingerprint one_vector = Ret bs
    /\ List.length bs = 256%nat
    /\ Forall (fun b => 0 <= b < 256) bs
    /\ decode_le16 bs = map (fun x => F64.floor (F64.mul x scale)) one_vector
    /\ Forall (fun z => -32768 <= z <= 32767) (decode_le16 bs)
    /\ (F64.to_Q scale == scale_Q)%Q
    /\ (forall i, nth_error one_vector i = Some (F64.of_Z 1) ->
                  nth_error (decode_le16 bs) i = Some 32767)
    /\ (one_vector = zero_vector -> bs = repeat 0 256).
Proof.
  apply (pack_valid_vector one_vector). vm_compute. reflexivity.
Defined.

Lemma scale_Q_positive : (0 < scale_Q)%Q.
Proof. reflexivity. Qed.

(** Dividing by the scale turns an error of one unit into [1 / scale]. *)
Lemma unscale_close (q : Z) (x : Q) :
  (Qabs (inject_Z q - x * scale_Q) <= 1)%Q ->
  (Qabs (inject_Z q / scale_Q - x) <= 1 / scale_Q)%Q.
Proof.
  intros H.
  assert (Hs : ~ (scale_Q == 0)%Q) by (intros Heq; discriminate Heq).
  assert (Hinv : (0 <= / scale_Q)%Q) by (apply Qlt_le_weak, Qinv_lt_0_compat, scale_Q_positive).
  assert (Heq : (inject_Z q / scale_Q - x == (inject_Z q - x * scale_Q) * / scale_Q)%Q)
    by (field; exact Hs).
  rewrite Heq, Qabs_Qmult, (Qabs_pos (/ scale_Q) Hinv).
  unfold Qdiv. apply Qmult_le_compat_r; assumption.
Qed.

(** C8: with [unpack] the inverse scaling of the specification, for every
    vector [v] of 128 doubles in [[-1, 1]], each element of
    [unpack (pack_fingerprint v)] is within [1 / scale] of the element of
    [v] at the same place. *)
Theorem unpack_pack_close (v : list spec_float) :
  valid_vector v = true ->
  exists bs,
    pack_fingerprint v = Ret bs
    /\ Forall2 (fun x y => (Qabs (y - F64.to_Q x) <= 1 / scale_Q)%Q) v (unpack bs).
Proof.
  intros Hv. destruct (valid_vector_elements v Hv) as [Hlen Hall].
  exists (flat_map le16 (map (fun x => F64.floor (F64.mul x scale)) v)).
  split; [apply pack_fingerprint_valid; exact Hv |].
  unfold unpack. rewrite decode_le16_pack.
  - clear Hv Hlen. induction Hall as [| x v [Hvalid Hrange] _ IH]; simpl.
    + constructor.
    + constructor; [| exact IH].
      apply unscale_close, floor_mul_scale_close; assumption.
  - apply List.Forall_forall. intros z Hz. apply in_map_iff in Hz.
    destruct Hz as (x & <- & Hx). rewrite List.Forall_forall in Hall.
    destruct (Hall x Hx). apply floor_mul_scale_range; assumption.
Qed.

Lemma unpack_pack_close_witness :
  exists bs,
    pack_fingerprint one_vector = Ret bs
    /\ Forall2 (fun x y => (Qabs (y - F64.to_Q x) <= 1 / scale_Q)%Q)
               one_vector (unpack bs).
Proof.
  apply (unpack_pack_close one_vector). vm_compute. reflexivity.
Defined.

(** * Further properties *)

Local Open Scope string_scope.

(** ** Splitting a line *)

Lemma append_cons (c : ascii) (s t : string) : String c s ++ t = String c (s ++ t).
Proof. reflexivity. Qed.

Lemma append_nil_l (t : string) : "" ++ t = t.
Proof. reflexivity. Qed.

Lemma append_nil_r (s : string) : s ++ "" = s.
Proof.
  induction s as [| c s IH]; [reflexivity |].
  rewrite append_cons, IH. reflexivity.
Qed.

Lemma append_assoc (s t u : string) : (s ++ t) ++ u = s ++ (t ++ u).
Proof.
  induction s as [| c s IH]; [reflexivity |].
  rewrite !append_cons, IH. reflexivity.
Qed.

Lemma all_chars_append (p : ascii -> bool) (s t : string) :
  all_chars p (s ++ t) = all_chars p s && all_chars p t.
Proof.
  induction s as [| c s IH]; [reflexivity |].
  rewrite append_cons. simpl. rewrite IH, andb_assoc. reflexivity.
Qed.

(** Reading on through a field. *)
Lemma split_from_solid (w : string) :
  forall word s,
    solid w = true ->
    split_from word (w ++ s) = split_from (word ++ w) s.
Proof.
  induction w as [| c w IH]; intros word s Hw.
  - rewrite append_nil_l, append_nil_r. reflexivity.
  - simpl in Hw. apply andb_true_iff in Hw. destruct Hw as [Hc Hw].
    apply negb_true_iff in Hc. rewrite append_cons. simpl.
    rewrite Hc, (IH _ _ Hw), append_assoc. reflexivity.
Qed.

(** Whitespace ends the field that is being read. *)
Lemma split_from_blank (ws : string) :
  forall word s,
    blank ws = true ->
    ws <> "" \/ word = "" ->
    split_from word (ws ++ s) =
    match word with
    | "" => split_from "" s
    | _ => word :: split_from "" s
    end.
Proof.
  induction ws as [| c ws IH]; intros word s Hws Hne.
  - destruct Hne as [Hne | ->]; [contradiction | reflexivity].
  - simpl in Hws. apply andb_true_iff in Hws. destruct Hws as [Hc Hws].
    rewrite append_cons. simpl.
    rewrite Hc. rewrite (IH "" s Hws (or_intror eq_refl)).
    destruct word; reflexivity.
Qed.

Lemma split_from_blank_end (ws : string) :
  forall word,
    blank ws = true ->
    split_from word ws = match word with "" => [] | _ => [word] end.
Proof.
  induction ws as [| c ws IH]; intros word Hws; [reflexivity |].
  simpl in Hws. apply andb_true_iff in Hws. destruct Hws as [Hc Hws].
  simpl. rewrite Hc, (IH "" Hws). destruct word; reflexivity.
Qed.

Lemma split_from_fields (s : string) :
  forall word,
    solid word = true ->
    Forall (fun w => w <> "" /\ solid w = true) (split_from word s).
Proof.
  induction s as [| c s IH]; intros word Hword; simpl.
  - destruct word; repeat constructor; [discriminate | exact Hword].
  - destruct (is_space c) eqn:Hc.
    + destruct word; [apply IH; reflexivity |].
      constructor; [split; [discriminate | exact Hword] | apply IH; reflexivity].
    + apply IH. unfold solid. rewrite all_chars_append. fold (solid word).
      rewrite Hword. simpl. rewrite Hc. reflexivity.
Qed.

Lemma split_lstrip (s : string) : py_split (py_lstrip s) = py_split s.
Proof.
  unfold py_split. induction s as [| c s IH]; simpl; [reflexivity |].
  destruct (is_space c) eqn:Hc; [exact IH |]. simpl. rewrite Hc. reflexivity.
Qed.

Lemma split_from_rstrip (s : string) :
  forall word, split_from word (py_rstrip s) = split_from word s.
Proof.
  induction s as [| c s IH]; intros word; simpl; [reflexivity |].
  destruct (py_rstrip s) as [| k kept] eqn:Hkept.
  - destruct (is_space c) eqn:Hc; simpl.
    + rewrite <- (IH ""). destruct word; reflexivity.
    + rewrite Hc. apply IH.
  - simpl. destruct (is_space c) eqn:Hc.
    + rewrite <- (IH ""). reflexivity.
    + rewrite <- (IH (word ++ String c "")). reflexivity.
Qed.

(** [strip] before [split] changes nothing. *)
Lemma split_strip (s : string) : py_split (py_strip s) = py_split s.
Proof.
  unfold py_strip, py_split. rewrite split_from_rstrip. apply split_lstrip.
Qed.

(** ** Loading the configuration *)

Lemma parse_line_split (line : string) :
  parse_line line =
  match py_split line with
  | [din; motor] => Ret (din, motor)
  | _ :: _ :: _ :: _ =>
      Raise (ValueError "too many values to unpack (expected 2)")
  | fields =>
      Raise (ValueError ("not enough values to unpack (expected 2, got "
                         ++ pretty (List.length fields) ++ ")"))
  end.
Proof. unfold parse_line. rewrite split_strip. reflexivity. Qed.

Lemma parse_line_cases (line : string) :
  (exists din motor,
      py_split line = [din; motor] /\ parse_line line = Ret (din, motor))
  \/ (List.length (py_split line) <> 2%nat
      /\ exists msg, parse_line line = Raise (ValueError msg)).
Proof.
  rewrite parse_line_split.
  destruct (py_split line) as [| a [| b [| c l]]].
  - right. split; [discriminate | eexists; reflexivity].
  - right. split; [discriminate | eexists; reflexivity].
  - left. exists a, b. split; reflexivity.
  - right. split; [discriminate | eexists; reflexivity].
Qed.

Lemma parse_line_fields (line din motor : string) :
  parse_line line = Ret (din, motor) ->
  (din <> "" /\ solid din = true) /\ (motor <> "" /\ solid motor = true).
Proof.
  intros H. destruct (parse_line_cases line) as [(d & m & Hsplit & Hp) | [_ [msg Hp]]];
    rewrite Hp in H; [| discriminate].
  inversion H; subst d m.
  pose proof (split_from_fields line "" eq_refl) as Hall.
  fold (py_split line) in Hall. rewrite Hsplit in Hall.
  inversion Hall as [| ? ? Hd Hrest]; subst.
  inversion Hrest as [| ? ? Hm _]; subst. split; assumption.
Qed.

Lemma load_lines_lookup (lines : list string) :
  forall (m cfg : gmap string string) (din motor : string),
    load_lines lines m = Ret cfg ->
    cfg !! din = Some motor <->
    (exists before line after,
        lines = (before ++ line :: after)%list
        /\ parse_line line = Ret (din, motor)
        /\ Forall (fun l => forall m', parse_line l <> Ret (din, m')) after)
    \/ (Forall (fun l => forall m', parse_line l <> Ret (din, m')) lines
        /\ m !! din = Some motor).
Proof.
  induction lines as [| line rest IH]; intros m cfg din motor Hload.
  - simpl in Hload. inversion Hload; subst cfg. split.
    + intros H. right. split; [constructor | exact H].
    + intros [(before & l & after & Heq & _) | [_ H]]; [| exact H].
      destruct before; discriminate.
  - simpl in Hload.
    destruct (parse_line line) as [[d mo] | e] eqn:Hline; [| discriminate].
    rewrite (IH _ _ din motor Hload). split.
    + intros [(before & l & after & -> & Hl & Hafter) | [Hrest Hm]].
      * left. exists (line :: before), l, after. auto.
      * destruct (decide (d = din)) as [-> | Hne].
        -- rewrite lookup_insert_eq in Hm. inversion Hm; subst mo.
           left. exists [], line, rest. auto.
        -- rewrite lookup_insert_ne in Hm by exact Hne.
           right. split; [| exact Hm]. constructor; [| exact Hrest].
           intros m' Hm'. rewrite Hm' in Hline. congruence.
    + intros [(before & l & after & Heq & Hl & Hafter) | [Hall Hm]].
      * destruct before as [| b before]; simpl in Heq; inversion Heq; subst.
        -- rewrite Hl in Hline. inversion Hline; subst d mo.
           right. split; [exact Hafter |]. apply lookup_insert_eq.
        -- left. exists before, l, after. auto.
      * inversion Hall as [| ? ? Hhead Hrest]; subst.
        right. split; [exact Hrest |].
        rewrite lookup_insert_ne; [exact Hm |].
        intros ->. exact (Hhead mo Hline).
Qed.

Lemma load_lines_malformed (lines : list string) :
  forall (m : gmap string string) (line : string),
    In line lines ->
    List.length (py_split line) <> 2%nat ->
    exists msg, load_lines lines m = Raise (ValueError msg).
Proof.
  induction lines as [| l rest IH]; intros m line Hin Hbad; [contradiction |].
  simpl. destruct (parse_line_cases l) as [(d & mo & Hsplit & Hp) | [_ [msg Hp]]];
    rewrite Hp; [| exists msg; reflexivity].
  destruct Hin as [-> | Hin].
  - rewrite Hsplit in Hbad. contradiction Hbad. reflexivity.
  - exact (IH _ line Hin Hbad).
Qed.

(** X1: a line made of a drug number and a motor name, without whitespace
    in them, separated by whitespace and with any whitespace around, is
    read as that pair. *)
Theorem parse_line_formatted (ws1 din ws2 motor ws3 : string) :
  blank ws1 = true -> blank ws2 = true -> ws2 <> "" -> blank ws3 = true ->
  solid din = true -> din <> "" ->
  solid motor = true -> motor <> "" ->
  parse_line (ws1 ++ din ++ ws2 ++ motor ++ ws3) = Ret (din, motor).
Proof.
  intros H1 H2 H2ne H3 Hd Hdne Hm Hmne.
  rewrite parse_line_split. unfold py_split.
  rewrite (split_from_blank ws1 "" _ H1 (or_intror eq_refl)).
  rewrite (split_from_solid din "" _ Hd), append_nil_l.
  rewrite (split_from_blank ws2 din _ H2 (or_introl H2ne)).
  destruct din as [| c din]; [contradiction |].
  rewrite (split_from_solid motor "" _ Hm), append_nil_l.
  rewrite (split_from_blank_end ws3 motor H3).
  destruct motor as [| c' motor]; [contradiction | reflexivity].
Qed.

(** ** More on the loop over the prescriptions *)

Lemma dispense_loop_raise (g : globals) (pres : pyval) (rest : list pyval)
    (acc : list string) (e : exn) :
  py_getitem pres "din" = Raise e ->
  dispense_loop g (pres :: rest) acc = ([], Raise e).
Proof. intros H. simpl. rewrite H. reflexivity. Qed.

Lemma dispense_loop_unhashable (g : globals) (pres : pyval) (rest : list pyval)
    (acc : list string) (din : pyval) :
  py_getitem pres "din" = Ret din ->
  match din with PList _ | PDict _ => True | _ => False end ->
  dispense_loop g (pres :: rest) acc = ([], Raise TypeError).
Proof.
  intros H Hkind. simpl. rewrite H.
  destruct din; try contradiction; reflexivity.
Qed.

(** The cases of one turn of the loop: what it does depends on the
    prescription only. *)
Lemma dispense_loop_turn (g : globals) (pres : pyval) (acc : list string) :
  (exists e,
      (forall s, py_getitem pres "din" <> Ret (PStr s))
      /\ forall rest,
          dispense_loop g (pres :: rest) acc = ([], Raise e)
          /\ stocked_dins g (pres :: rest) = stocked_dins g rest)
  \/ (forall rest,
         dispense_loop g (pres :: rest) acc = dispense_loop g rest acc
         /\ stocked_dins g (pres :: rest) = stocked_dins g rest)
  \/ (exists din motor,
         py_getitem pres "din" = Ret (PStr din)
         /\ din_to_motor g !! din = Some motor
         /\ forall rest,
             stocked_dins g (pres :: rest) = din :: stocked_dins g rest
             /\ dispense_loop g (pres :: rest) acc =
                (Log INFO ("Attempting to dispense drug with DIN " ++ din)
                 :: Attempt din motor
                 :: Log INFO "Drug dispense reported failure"
                 :: fst (dispense_loop g rest acc),
                 snd (dispense_loop g rest acc))).
Proof.
  destruct (py_getitem pres "din") as [v | e] eqn:Hdin.
  - destruct v;
      try (right; left; intros rest; split;
           [exact (dispense_loop_other g pres rest acc _ Hdin I)
           | simpl; rewrite Hdin; reflexivity]).
    + destruct (din_to_motor g !! s) as [motor |] eqn:Hmotor.
      * right. right. exists s, motor. repeat split; try assumption.
        -- simpl. rewrite Hdin.
           rewrite bool_decide_eq_true_2 by (rewrite Hmotor; eauto). reflexivity.
        -- exact (dispense_loop_stocked g pres rest acc s motor Hdin Hmotor).
      * right. left. intros rest. split.
        -- exact (dispense_loop_absent g pres rest acc s Hdin Hmotor).
        -- simpl. rewrite Hdin.
           rewrite bool_decide_eq_false_2
             by (rewrite Hmotor; intros [? ?]; discriminate).
           reflexivity.
    + left. exists TypeError. split; [intros s; discriminate |].
      intros rest. split.
      * exact (dispense_loop_unhashable g pres rest acc _ Hdin I).
      * simpl. rewrite Hdin. reflexivity.
    + left. exists TypeError. split; [intros s; discriminate |].
      intros rest. split.
      * exact (dispense_loop_unhashable g pres rest acc _ Hdin I).
      * simpl. rewrite Hdin. reflexivity.
  - left. exists e. split; [intros s; discriminate |].
    intros rest. split.
    + exact (dispense_loop_raise g pres rest acc e Hdin).
    + simpl. rewrite Hdin. reflexivity.
Qed.

(** X2: every dispense attempt of the loop is for a drug that is stocked,
    with the motor of that drug, and that a prescription of the list
    names. *)
Theorem attempts_are_prescribed (g : globals) (prescriptions : list pyval)
    (acc : list string) (din motor : string) :
  In (Attempt din motor) (fst (dispense_loop g prescriptions acc)) ->
  din_to_motor g !! din = Some motor
  /\ exists pres, In pres prescriptions /\ py_getitem pres "din" = Ret (PStr din).
Proof.
  revert acc. induction prescriptions as [| pres rest IH]; intros acc Hin.
  - contradiction.
  - destruct (dispense_loop_turn g pres acc)
      as [(e & _ & He) | [He | (d & m & Hdin & Hmotor & He)]];
      destruct (He rest) as [H1 H2].
    + rewrite H1 in Hin. contradiction.
    + rewrite H1 in Hin. destruct (IH acc Hin) as [Hm (p & Hp & Hpd)].
      split; [exact Hm | exists p; split; [right; exact Hp | exact Hpd]].
    + rewrite H2 in Hin. simpl in Hin.
      destruct Hin as [Hin | [Hin | [Hin | Hin]]]; try discriminate.
      * inversion Hin; subst d m. split; [exact Hmotor |].
        exists pres. split; [left; reflexivity | exact Hdin].
      * destruct (IH acc Hin) as [Hm (p & Hp & Hpd)].
        split; [exact Hm | exists p; split; [right; exact Hp | exact Hpd]].
Qed.

(** X3: when the loop completes, the drugs it attempted are the stocked
    drugs of the list, in the order of the list. *)
Theorem attempts_follow_the_list (g : globals) (prescriptions : list pyval)
    (acc l : list string) :
  snd (dispense_loop g prescriptions acc) = Ret l ->
  attempted (fst (dispense_loop g prescriptions acc)) = stocked_dins g prescriptions.
Proof.
  revert acc. induction prescriptions as [| pres rest IH]; intros acc Hret.
  - reflexivity.
  - destruct (dispense_loop_turn g pres acc)
      as [(e & _ & He) | [He | (d & m & _ & _ & He)]];
      destruct (He rest) as [H1 H2].
    + rewrite H1 in Hret. discriminate.
    + rewrite H1 in Hret |- *. rewrite H2. exact (IH acc Hret).
    + rewrite H2 in Hret |- *. rewrite H1. simpl. f_equal. exact (IH acc Hret).
Qed.

(** X4: a prescription without the key [din], or that is no dictionary,
    stops the loop with the exception of the lookup: the prescriptions
    before it have been handled, those after it are not looked at. *)
Theorem malformed_prescription_stops_the_loop (g : globals)
    (before after : list pyval) (bad : pyval) (acc l : list string) (e : exn) :
  snd (dispense_loop g before acc) = Ret l ->
  py_getitem bad "din" = Raise e ->
  dispense_loop g (before ++ bad :: after) acc =
  (fst (dispense_loop g before acc), Raise e).
Proof.
  intros Hret Hbad. revert acc Hret.
  induction before as [| pres rest IH]; intros acc Hret.
  - exact (dispense_loop_raise g bad after acc e Hbad).
  - change ((pres :: rest) ++ bad :: after)%list
      with (pres :: (rest ++ bad :: after)%list).
    destruct (dispense_loop_turn g pres acc)
      as [(e' & _ & He) | [He | (d & m & _ & _ & He)]].
    + destruct (He rest) as [H1 _]. rewrite H1 in Hret. discriminate.
    + destruct (He rest) as [H1 _]. destruct (He (rest ++ bad :: after)%list) as [H2 _].
      rewrite H1 in Hret |- *. rewrite H2. exact (IH acc Hret).
    + destruct (He rest) as [_ H1]. destruct (He (rest ++ bad :: after)%list) as [_ H2].
      rewrite H1 in Hret |- *. rewrite H2. simpl in Hret |- *.
      rewrite (IH acc Hret). reflexivity.
Qed.

(** ** More on the shape of one pass *)

(** Case analysis on the collaborators of [acquire], in program order. *)
Ltac acquire_cases sc :=
  unfold acquire;
  destruct (sc_pacing sc) as [[] | ?] eqn:Hpacing; cbn;
  try match goal with
    | |- context [sc_read sc] =>
        destruct (sc_read sc) as [[|] | ?] eqn:Hread; cbn
    end;
  try match goal with
    | |- context [sc_cvt sc] =>
        destruct (sc_cvt sc) as [[] | ?] eqn:Hcvt; cbn
    end;
  try match goal with
    | |- context [sc_faces sc] =>
        destruct (sc_faces sc) as [[| ?] | ?] eqn:Hfaces; cbn
    end;
  try match goal with
    | |- context [sc_encodings sc] =>
        destruct (sc_encodings sc) as [[| ? ?] | ?] eqn:Hencodings; cbn
    end;
  try match goal with
    | |- context [pack_fingerprint ?f] =>
        destruct (pack_fingerprint f) as [? | ?] eqn:Hpack; cbn
    end;
  try match goal with
    | |- context [sc_session sc] =>
        destruct (sc_session sc) as [[] | ?] eqn:Hsession; cbn
    end;
  try match goal with
    | |- context [sc_get sc] =>
        destruct (sc_get sc) as [[] | ?] eqn:Hget; cbn
    end;
  try match goal with
    | |- context [sc_json sc] =>
        destruct (sc_json sc) as [? | ?] eqn:Hjson; cbn
    end.

Lemma acquire_events (sc : scenario) :
  Forall (fun ev => acquire_event ev = true) (fst (acquire sc)).
Proof. acquire_cases sc; repeat constructor. Qed.

(** The request of a pass: when it is sent, and what it carries. *)
Lemma acquire_request (sc : scenario) (url : string) (payload : pyval) :
  In (HttpGet url payload) (fst (acquire sc)) ->
  sc_read sc = Ret true
  /\ (exists n, sc_faces sc = Ret (S n))
  /\ exists f fs packed,
      sc_encodings sc = Ret (f :: fs)
      /\ pack_fingerprint f = Ret packed
      /\ url = api_endpoint ++ "/user/pharmacy_get"
      /\ payload = PDict [("version", PStr api_version);
                          ("fingerprint", PBytes (b64encode packed))].
Proof.
  acquire_cases sc; intros Hin;
    repeat (destruct Hin as [Hin | Hin]; [try discriminate Hin |]);
    try contradiction;
    (inversion Hin; subst; split; [reflexivity |]; split; [eauto |];
     do 3 eexists; repeat split; eassumption).
Qed.

Lemma acquire_request_count (sc : scenario) :
  (List.length (List.filter is_request (fst (acquire sc))) <= 1)%nat.
Proof. acquire_cases sc; lia. Qed.

Lemma acquire_answered (sc : scenario) (response : pyval) :
  answered sc response -> snd (acquire sc) = Ret (Some response).
Proof.
  intros (H1 & H2 & H3 & [n H4] & (f & fs & packed & H5 & H6) & H7 & H8 & H9).
  unfold acquire. rewrite H1, H2, H3, H4, H5. cbn. rewrite H6. cbn.
  rewrite H7, H8, H9. reflexivity.
Qed.

Lemma dispense_loop_events (g : globals) (prescriptions : list pyval) :
  forall acc,
    Forall (fun ev => match_event ev = true)
           (fst (dispense_loop g prescriptions acc)).
Proof.
  induction prescriptions as [| pres rest IH]; intros acc.
  - constructor.
  - destruct (dispense_loop_turn g pres acc)
      as [(e & _ & He) | [He | (d & m & _ & _ & He)]];
      destruct (He rest) as [H1 H2].
    + rewrite H1. constructor.
    + rewrite H1. apply IH.
    + rewrite H2. repeat constructor. apply IH.
Qed.

Lemma on_match_events (g : globals) (sc : scenario) :
  Forall (fun ev => match_event ev = true) (fst (on_match g sc)).
Proof.
  unfold on_match, read_data.
  destruct (data g) as [d |]; [| repeat constructor].
  destruct (py_getitem d "id") as [tok | e] eqn:Hid;
    [| cbn; rewrite Hid; repeat constructor].
  cbn. rewrite Hid. cbn.
  destruct (py_getitem d "prescriptions") as [ps | e]; cbn;
    [| repeat constructor].
  destruct (py_iter ps) as [items | e]; cbn; [| repeat constructor].
  pose proof (dispense_loop_events g items []) as Hloop.
  destruct (dispense_loop g items []) as [tl [l | e]]; cbn in *;
    repeat (constructor; [reflexivity |]).
  - rewrite app_nil_r. exact Hloop.
  - exact Hloop.
Qed.

(** The trace of a pass: the events of [acquire], then events of the
    branch taken on a match. *)
Lemma main_step_events (g : globals) (sc : scenario) :
  exists t1,
    fst (main_step g sc) = (fst (acquire sc) ++ t1)%list
    /\ Forall (fun ev => match_event ev = true) t1.
Proof.
  rewrite main_step_split, bind_fst.
  destruct (acquire sc) as [t0 [[response |] | e]]; simpl.
  - eexists. split; [reflexivity |].
    rewrite bind_fst, auth_guard_silent.
    destruct (snd (auth_guard g response)) as [[|] | e]; simpl;
      [apply on_match_events | constructor | constructor].
  - exists []. split; [reflexivity | constructor].
  - exists []. split; [rewrite app_nil_r; reflexivity | constructor].
Qed.

Lemma filter_none {A} (p : A -> bool) (l : list A) :
  Forall (fun x => p x = false) l -> List.filter p l = [].
Proof.
  induction 1 as [| x l Hx _ IH]; [reflexivity |]. simpl. rewrite Hx. exact IH.
Qed.

(** ** The request of a pass *)

(** The request of a pass, seen in the trace of the pass. *)
Lemma main_step_request (g : globals) (sc : scenario)
    (url : string) (payload : pyval) :
  In (HttpGet url payload) (fst (main_step g sc)) ->
  sc_read sc = Ret true
  /\ (exists n, sc_faces sc = Ret (S n))
  /\ exists f fs packed,
      sc_encodings sc = Ret (f :: fs)
      /\ pack_fingerprint f = Ret packed
      /\ url = api_endpoint ++ "/user/pharmacy_get"
      /\ payload = PDict [("version", PStr api_version);
                          ("fingerprint", PBytes (b64encode packed))].
Proof.
  intros Hin. destruct (main_step_events g sc) as (t1 & Htrace & Ht1).
  rewrite Htrace in Hin. apply in_app_or in Hin. destruct Hin as [Hin | Hin].
  - exact (acquire_request sc url payload Hin).
  - rewrite List.Forall_forall in Ht1. apply Ht1 in Hin. discriminate Hin.
Qed.


(** X5: a pass sends a request only after a successful capture in which a
    face was found and whose first fingerprint could be packed; the
    request goes to the endpoint [/user/pharmacy_get] and carries the API
    version and the base64 text of the packed fingerprint. *)
Theorem request_carries_packed_fingerprint (g : globals) (sc : scenario)
    (url : string) (payload : pyval) :
  In (HttpGet url payload) (fst (main_step g sc)) ->
  sc_read sc = Ret true
  /\ (exists n, sc_faces sc = Ret (S n))
  /\ exists f fs packed,
      sc_encodings sc = Ret (f :: fs)
      /\ pack_fingerprint f = Ret packed
      /\ url = api_endpoint ++ "/user/pharmacy_get"
      /\ payload = PDict [("version", PStr api_version);
                          ("fingerprint", PBytes (b64encode packed))].
Proof. apply main_step_request. Qed.

(** X6: a pass sends at most one request: the authentication is not tried
    again, and the report that a pass runs sends nothing. *)
Theorem one_request_per_pass (g : globals) (sc : scenario) :
  (List.length (List.filter is_request (fst (main_step g sc))) <= 1)%nat.
Proof.
  destruct (main_step_events g sc) as (t1 & Htrace & Ht1).
  rewrite Htrace, List.filter_app, List.length_app.
  rewrite (filter_none is_request t1).
  - pose proof (acquire_request_count sc). simpl. lia.
  - eapply List.Forall_impl; [| exact Ht1].
    intros ev Hev. destruct ev; try discriminate Hev; reflexivity.
Qed.

(** ** The module as it is written, again *)

(** X7: with the globals of the module, a pass in which the server's answer
    reaches the guard and is not [None] ends in [NameError], with no event
    after the decoding of the answer. *)
Theorem answered_pass_raises_name_error (cfg : gmap string string)
    (sc : scenario) (response : pyval) :
  answered sc response ->
  is_None response = false ->
  main_step (module_globals cfg) sc = (fst (acquire sc), Raise NameError).
Proof.
  intros Hans Hnone. pose proof (acquire_answered sc response Hans) as Hacq.
  rewrite main_step_split.
  destruct (acquire sc) as [t0 r]. simpl in Hacq. subst r. simpl.
  rewrite (unbound_data_raises cfg response Hnone). simpl.
  rewrite app_nil_r. reflexivity.
Qed.

Lemma module_pass_quiet (cfg : gmap string string) (sc : scenario) :
  Forall (fun ev => is_create_task ev = false /\ is_any_attempt ev = false)
         (fst (main_step (module_globals cfg) sc)).
Proof.
  rewrite main_step_split, bind_fst.
  pose proof (acquire_quiet sc) as Hquiet.
  destruct (acquire sc) as [t0 [[response |] | e]]; simpl in *.
  - destruct (is_None response) eqn:Hnone.
    + unfold auth_guard. rewrite Hnone. simpl. rewrite app_nil_r. exact Hquiet.
    + rewrite (unbound_data_raises cfg response Hnone). simpl.
      rewrite app_nil_r. exact Hquiet.
  - rewrite app_nil_r. exact Hquiet.
  - exact Hquiet.
Qed.

(** ** More on the supervising loop *)

Lemma loop_pass_survives (g : globals) (sc : scenario) :
  (forall e, snd (main_step g sc) = Raise e -> is_Exception e = true) ->
  snd (loop_pass g sc) = Ret tt.
Proof.
  intros Herr. unfold loop_pass, try_except.
  destruct (main_step g sc) as [t [[] | e]]; simpl in *; [reflexivity |].
  specialize (Herr e eq_refl). destruct e; try discriminate Herr; reflexivity.
Qed.

(** X8: as long as every pass returns or raises an instance of
    [Exception], the loop is still running after any number of passes, and
    its trace is the traces of the passes one after the other. *)
Theorem loop_survives_errors (g : globals) (passes : list scenario) :
  Forall (fun sc => forall e, snd (main_step g sc) = Raise e ->
                              is_Exception e = true) passes ->
  main_loop g passes =
  (concat (map (fun sc => fst (loop_pass g sc)) passes), Ret tt).
Proof.
  induction 1 as [| sc rest Hsc _ IH]; [reflexivity |].
  rewrite (main_loop_next g sc rest (loop_pass_survives g sc Hsc)), IH.
  reflexivity.
Qed.

(** X9: an exception of a pass that is no instance of [Exception] ends the
    loop at that pass, whatever would come after: [KeyboardInterrupt] is
    logged at level INFO and raised again, any other one leaves without a
    log entry. *)
Theorem interrupt_ends_the_loop (g : globals) (sc : scenario)
    (rest : list scenario) (t : trace) (e : exn) :
  main_step g sc = (t, Raise e) ->
  is_Exception e = false ->
  main_loop g (sc :: rest) =
  (UtcNow
   :: Log DEBUG ("Starting the main loop | Current UTC time is " ++ sc_now sc)
   :: t ++ (if is_KeyboardInterrupt e
            then [Log INFO "Exiting main loop because a keyboard interrupt (SIGINT) was received"]
            else []),
   Raise e).
Proof.
  intros Hstep He. simpl. unfold loop_pass, try_except. rewrite Hstep.
  destruct e; try discriminate He; simpl; rewrite ?app_nil_r; reflexivity.
Qed.

Section Events.

Variable P : event -> Prop.
Hypothesis P_log : forall lvl msg, P (Log lvl msg).
Hypothesis P_log_exc : forall lvl e, P (LogExc lvl e).
Hypothesis P_now : P UtcNow.

Variable g : globals.
Hypothesis P_step : forall sc, Forall P (fst (main_step g sc)).

(** What holds of the events of every pass and of the log entries holds of
    the events of the loop. *)
Lemma loop_pass_all (sc : scenario) : Forall P (fst (loop_pass g sc)).
Proof.
  unfold loop_pass, try_except. specialize (P_step sc).
  destruct (main_step g sc) as [t [[] | e]]; simpl in *.
  - repeat (constructor; [auto |]). exact P_step.
  - assert (Hend : forall rest, Forall P rest -> Forall P (t ++ rest)%list)
      by (intros rest Hrest; apply List.Forall_app; split; assumption).
    destruct (is_KeyboardInterrupt e); [| destruct (is_Exception e)]; simpl;
      do 2 (constructor; [auto |]); apply Hend; repeat constructor; auto.
Qed.

Lemma main_loop_all (passes : list scenario) : Forall P (fst (main_loop g passes)).
Proof.
  induction passes as [| sc rest IH]; [constructor |].
  simpl. rewrite bind_fst.
  destruct (snd (loop_pass g sc)); [| apply loop_pass_all].
  apply List.Forall_app. split; [apply loop_pass_all | exact IH].
Qed.

End Events.

Lemma main_step_no_open (g : globals) (sc : scenario) :
  Forall (fun ev => is_open_capture ev = false) (fst (main_step g sc)).
Proof.
  destruct (main_step_events g sc) as (t1 & -> & Ht1).
  apply List.Forall_app. split.
  - eapply List.Forall_impl; [| apply acquire_events].
    intros ev Hev. destruct ev; try discriminate Hev; reflexivity.
  - eapply List.Forall_impl; [| exact Ht1].
    intros ev Hev. destruct ev; try discriminate Hev; reflexivity.
Qed.

(** X10: [main_async] opens the camera once, before the first pass, and no
    pass opens it again. *)
Theorem camera_is_opened_once (g : globals) (now : string)
    (passes : list scenario) :
  List.length (List.filter is_open_capture (fst (main_async g now passes))) = 1%nat
  /\ Forall (fun ev => is_open_capture ev = false) (fst (main_loop g passes)).
Proof.
  assert (Hloop : Forall (fun ev => is_open_capture ev = false)
                         (fst (main_loop g passes))).
  { apply main_loop_all; try reflexivity. intros sc. apply main_step_no_open. }
  split; [| exact Hloop].
  unfold main_async. rewrite !bind_emit. unfold log. rewrite bind_emit.
  simpl. rewrite (filter_none _ _ Hloop). reflexivity.
Qed.

(** ** The program as it is written *)

(** X11: the program as it is written, whatever [din.cfg] holds and whatever
    the collaborators do, never attempts to dispense a drug and never
    creates a report task. *)
Theorem program_never_dispenses (file : result (list string)) (now : string)
    (passes : list scenario) :
  Forall (fun ev => is_any_attempt ev = false /\ is_create_task ev = false)
         (fst (main file now passes)).
Proof.
  unfold main. destruct file as [lines | e]; [| constructor].
  simpl. destruct (load_lines lines ∅) as [cfg | e]; [| constructor].
  simpl. match goal with |- context [main_async ?g ?n ?p] =>
    assert (H : Forall (fun ev => is_any_attempt ev = false /\ is_create_task ev = false)
                       (fst (main_async g n p))) end.
  { unfold main_async. rewrite !bind_emit. unfold log. rewrite bind_emit.
    simpl. repeat (constructor; [split; reflexivity |]).
    apply main_loop_all; try (intros; split; reflexivity).
    intros sc. eapply List.Forall_impl; [| apply module_pass_quiet].
    intros ev [H1 H2]. split; assumption. }
  destruct (main_async _ _ _). exact H.
Qed.

(** ** The report on a list that is not empty *)

(** X12: on a list that is not empty, [report_dispensed] never returns: it
    ends in the exception of the session or of the request, or else in
    [TypeError], and it sends at most one request. *)
Theorem report_never_confirms (env : report_env) (auth_token : pyval)
    (drugs : list string) :
  drugs <> [] ->
  (exists e,
      snd (report_dispensed env auth_token drugs) = Raise e
      /\ (e = TypeError \/ re_session env = Raise e \/ re_get env = Raise e))
  /\ (List.length (List.filter is_request
                     (fst (report_dispensed env auth_token drugs))) <= 1)%nat.
Proof.
  intros Hne. destruct drugs as [| d drugs]; [contradiction |].
  unfold report_dispensed.
  destruct (re_session env) as [[] | e1] eqn:Hs; cbn.
  - destruct (re_get env) as [[] | e2] eqn:Hg; cbn; rewrite ?Hs, ?Hg; cbn.
    + split; [exists TypeError; auto | lia].
    + split; [exists e2; auto | lia].
  - rewrite ?Hs. cbn. split; [exists e1; auto | lia].
Qed.

Lemma report_never_confirms_witness :
  (exists e,
      snd (report_dispensed quiet_report (PStr "token") ["02242705"]) = Raise e
      /\ (e = TypeError \/ re_session quiet_report = Raise e
          \/ re_get quiet_report = Raise e))
  /\ (List.length (List.filter is_request
                     (fst (report_dispensed quiet_report (PStr "token")
                             ["02242705"]))) <= 1)%nat.
Proof.
  apply (report_never_confirms quiet_report (PStr "token") ["02242705"]).
  discriminate.
Defined.

(** ** The outcomes of the codec *)

(** The outcomes of [pack_fingerprint]. *)
Lemma pack_fingerprint_cases (v : list spec_float) :
  match pack_fingerprint v with
  | Ret bs =>
      existsb (fun x => F64.ltb (F64.of_Z 1) x) v = false
      /\ existsb (fun x => F64.ltb x (F64.of_Z (-1))) v = false
      /\ List.length v = 128%nat
      /\ List.length bs = 256%nat
      /\ Forall (fun b => (0 <= b < 256)%Z) bs
  | Raise (ValueError _) =>
      existsb (fun x => F64.ltb (F64.of_Z 1) x) v = true
      \/ existsb (fun x => F64.ltb x (F64.of_Z (-1))) v = true
  | Raise StructError =>
      existsb (fun x => F64.ltb (F64.of_Z 1) x) v = false
      /\ existsb (fun x => F64.ltb x (F64.of_Z (-1))) v = false
      /\ List.length v <> 128%nat
  | Raise _ => False
  end.
Proof.
  unfold pack_fingerprint.
  destruct (existsb (fun x => F64.ltb (F64.of_Z 1) x) v); [left; reflexivity |].
  destruct (existsb (fun x => F64.ltb x (F64.of_Z (-1))) v); [right; reflexivity |].
  replace (F64.leb (F64.of_Z 1) scale0) with false by reflexivity.
  unfold struct_pack_128h. rewrite length_map.
  destruct (Z.eqb_spec (Z.of_nat (List.length v)) 128) as [Hlen | Hlen].
  - repeat split; try lia.
    + rewrite length_pack, length_map. lia.
    + apply bytes_pack.
  - repeat split. lia.
Qed.


(** X13: [pack_fingerprint] returns bytes exactly for the vectors of 128
    elements none of which is above 1 or below -1, and then 256 of them; it
    raises [ValueError] when an element is above 1 or below -1, the error
    of [struct.pack] when no element is but the length is not 128, and
    nothing else. *)
Theorem pack_outcomes (v : list spec_float) :
  match pack_fingerprint v with
  | Ret bs =>
      existsb (fun x => F64.ltb (F64.of_Z 1) x) v = false
      /\ existsb (fun x => F64.ltb x (F64.of_Z (-1))) v = false
      /\ List.length v = 128%nat
      /\ List.length bs = 256%nat
      /\ Forall (fun b => (0 <= b < 256)%Z) bs
  | Raise (ValueError _) =>
      existsb (fun x => F64.ltb (F64.of_Z 1) x) v = true
      \/ existsb (fun x => F64.ltb x (F64.of_Z (-1))) v = true
  | Raise StructError =>
      existsb (fun x => F64.ltb (F64.of_Z 1) x) v = false
      /\ existsb (fun x => F64.ltb x (F64.of_Z (-1))) v = false
      /\ List.length v <> 128%nat
  | Raise _ => False
  end.
Proof. apply pack_fingerprint_cases. Qed.

(** X14: a NaN is not rejected: a vector of 128 elements each of which is a
    NaN or lies in [[-1, 1]] is packed into 256 bytes. *)
Theorem nan_is_not_rejected (v : list spec_float) :
  List.length v = 128%nat ->
  Forall (fun x => F64.is_nan x = true \/ in_unit_range x = true) v ->
  exists bs, pack_fingerprint v = Ret bs /\ List.length bs = 256%nat.
Proof.
  intros Hlen Hall.
  assert (Hno : existsb (fun x => F64.ltb (F64.of_Z 1) x) v = false
                /\ existsb (fun x => F64.ltb x (F64.of_Z (-1))) v = false).
  { clear Hlen. induction Hall as [| x v Hx _ [IH1 IH2]]; [split; reflexivity |].
    cbn [existsb]. rewrite IH1, IH2. destruct Hx as [Hnan | Hrange].
    - destruct x; try discriminate Hnan. split; reflexivity.
    - unfold in_unit_range in Hrange. apply andb_true_iff in Hrange.
      destruct Hrange as [Hlo Hhi].
      rewrite (leb_true_ltb _ _ Hhi), (leb_true_ltb _ _ Hlo). split; reflexivity. }
  destruct Hno as [H1 H2]. unfold pack_fingerprint. rewrite H1, H2.
  replace (F64.leb (F64.of_Z 1) scale0) with false by reflexivity.
  unfold struct_pack_128h. rewrite length_map, Hlen. simpl Z.eqb. cbv iota.
  eexists. split; [reflexivity |].
  rewrite length_pack, length_map, Hlen. reflexivity.
Qed.

Lemma nan_is_not_rejected_witness :
  exists bs, pack_fingerprint nan_vector = Ret bs /\ List.length bs = 256%nat.
Proof.
  apply (nan_is_not_rejected nan_vector); [reflexivity |].
  constructor; [left; reflexivity |].
  apply List.Forall_forall. intros x Hx. apply repeat_spec in Hx. subst x.
  right. reflexivity.
Defined.

(** ** The loaded configuration *)

Lemma parse_line_formatted_witness :
  parse_line (" " ++ "02242705" ++ String "009" " " ++ "motor1" ++ String "010" "")
  = Ret ("02242705", "motor1").
Proof.
  apply (parse_line_formatted " " "02242705" (String "009" " ") "motor1"
           (String "010" "")); try reflexivity; discriminate.
Defined.

(** X15: after the configuration is loaded, a drug is bound to the motor of
    the last line that names it, and a drug that no line names is not
    bound. *)
Theorem loaded_motor_is_last_binding (lines : list string)
    (cfg : gmap string string) (din motor : string) :
  load_lines lines ∅ = Ret cfg ->
  cfg !! din = Some motor <->
  exists before line after,
    lines = (before ++ line :: after)%list
    /\ parse_line line = Ret (din, motor)
    /\ Forall (fun l => forall m', parse_line l <> Ret (din, m')) after.
Proof.
  intros Hload. rewrite (load_lines_lookup lines ∅ cfg din motor Hload).
  split; [| intros H; left; exact H].
  intros [H | [_ H]]; [exact H |]. rewrite lookup_empty in H. discriminate.
Qed.

Lemma loaded_motor_is_last_binding_witness :
  sample_loaded !! "02242705" = Some "motor3" <->
  exists before line after,
    sample_lines = (before ++ line :: after)%list
    /\ parse_line line = Ret ("02242705", "motor3")
    /\ Forall (fun l => forall m', parse_line l <> Ret ("02242705", m')) after.
Proof.
  apply (loaded_motor_is_last_binding sample_lines sample_loaded).
  vm_compute. reflexivity.
Defined.

(** X16: the drug numbers and the motor names of the loaded configuration
    are not empty and hold no whitespace. *)
Theorem loaded_names_are_fields (lines : list string)
    (cfg : gmap string string) (din motor : string) :
  load_lines lines ∅ = Ret cfg ->
  cfg !! din = Some motor ->
  (din <> "" /\ solid din = true) /\ (motor <> "" /\ solid motor = true).
Proof.
  intros Hload Hdin.
  apply (load_lines_lookup lines ∅ cfg din motor Hload) in Hdin.
  destruct Hdin as [(before & line & after & _ & Hline & _) | [_ H]].
  - exact (parse_line_fields line din motor Hline).
  - rewrite lookup_empty in H. discriminate.
Qed.

Lemma loaded_names_are_fields_witness :
  ("00000002" <> "" /\ solid "00000002" = true)
  /\ ("motor2" <> "" /\ solid "motor2" = true).
Proof.
  apply (loaded_names_are_fields sample_lines sample_loaded "00000002" "motor2").
  - vm_compute. reflexivity.
  - vm_compute. reflexivity.
Defined.

(** X17: a line of [din.cfg] that does not hold exactly two fields, an empty
    line for one, makes [main] end in [ValueError] before anything else
    happens: the camera is not opened and the loop does not start. *)
Theorem malformed_line_aborts_startup (lines : list string) (line : string)
    (now : string) (passes : list scenario) :
  In line lines ->
  List.length (py_split line) <> 2%nat ->
  exists msg, main (Ret lines) now passes = ([], Raise (ValueError msg)).
Proof.
  intros Hin Hbad.
  destruct (load_lines_malformed lines ∅ line Hin Hbad) as [msg Hload].
  exists msg. unfold main. simpl. rewrite Hload. reflexivity.
Qed.

Lemma malformed_line_aborts_startup_witness :
  exists msg,
    main (Ret ["02242705 motor1"; String "010" ""]) "" [scenario_with PNone]
    = ([], Raise (ValueError msg)).
Proof.
  apply (malformed_line_aborts_startup
           ["02242705 motor1"; String "010" ""] (String "010" "")).
  - right. left. reflexivity.
  - vm_compute. discriminate.
Defined.

(** ** The size of the request *)

Lemma list_ind3 {A} (P : list A -> Prop) :
  P [] -> (forall a, P [a]) -> (forall a b, P [a; b]) ->
  (forall a b c l, P l -> P (a :: b :: c :: l)) ->
  forall l, P l.
Proof.
  intros H0 H1 H2 H3. fix IH 1.
  intros [| a [| b [| c l]]]; [exact H0 | apply H1 | apply H2 | apply H3, IH].
Qed.

Lemma b64encode_length (bs : list Z) :
  List.length (b64encode bs) = (4 * ((List.length bs + 2) / 3))%nat.
Proof.
  induction bs as [| a | a b | a b c l IH] using list_ind3; try reflexivity.
  change (List.length (b64encode (a :: b :: c :: l)))
    with (4 + List.length (b64encode l))%nat.
  rewrite IH. change (List.length (a :: b :: c :: l)) with (3 + List.length l)%nat.
  replace (3 + List.length l + 2)%nat with (List.length l + 2 + 1 * 3)%nat by lia.
  rewrite Nat.div_add by lia. lia.
Qed.

(** X18: the fingerprint that a request carries is a text of 344 characters,
    the base64 text of 256 bytes. *)
Theorem request_fingerprint_length (g : globals) (sc : scenario)
    (url : string) (payload : pyval) :
  In (HttpGet url payload) (fst (main_step g sc)) ->
  exists text,
    payload = PDict [("version", PStr api_version); ("fingerprint", PBytes text)]
    /\ List.length text = 344%nat.
Proof.
  intros Hin.
  destruct (main_step_request g sc url payload Hin)
    as (_ & _ & f & fs & packed & _ & Hpack & _ & ->).
  eexists. split; [reflexivity |].
  pose proof (pack_fingerprint_cases f) as Hcases. rewrite Hpack in Hcases.
  destruct Hcases as (_ & _ & _ & Hlen & _).
  rewrite b64encode_length, Hlen. reflexivity.
Qed.

(** ** Instances of the properties above *)

Lemma attempts_are_prescribed_witness :
  din_to_motor (module_globals sample_cfg) !! "02242705" = Some "motor1"
  /\ exists pres,
      In pres [pres_of "00000001"; pres_of "02242705"]
      /\ py_getitem pres "din" = Ret (PStr "02242705").
Proof.
  apply (attempts_are_prescribed (module_globals sample_cfg)
           [pres_of "00000001"; pres_of "02242705"] [] "02242705" "motor1").
  vm_compute. right. left. reflexivity.
Defined.

Lemma attempts_follow_the_list_witness :
  attempted (fst (dispense_loop (module_globals sample_cfg)
                    [pres_of "02242705"; pres_of "00000001"; pres_of "02242705"] []))
  = stocked_dins (module_globals sample_cfg)
      [pres_of "02242705"; pres_of "00000001"; pres_of "02242705"].
Proof.
  apply (attempts_follow_the_list (module_globals sample_cfg)
           [pres_of "02242705"; pres_of "00000001"; pres_of "02242705"] [] []).
  vm_compute. reflexivity.
Defined.

Lemma malformed_prescription_stops_the_loop_witness :
  dispense_loop (module_globals sample_cfg)
    ([pres_of "02242705"] ++ PDict [] :: [pres_of "02242705"]) []
  = (fst (dispense_loop (module_globals sample_cfg) [pres_of "02242705"] []),
     Raise KeyError).
Proof.
  apply (malformed_prescription_stops_the_loop (module_globals sample_cfg)
           [pres_of "02242705"] [pres_of "02242705"] (PDict []) [] [] KeyError).
  - vm_compute. reflexivity.
  - reflexivity.
Defined.

Lemma request_carries_packed_fingerprint_witness :
  sc_read (scenario_with response_no_match) = Ret true
  /\ (exists n, sc_faces (scenario_with response_no_match) = Ret (S n))
  /\ exists f fs packed,
      sc_encodings (scenario_with response_no_match) = Ret (f :: fs)
      /\ pack_fingerprint f = Ret packed
      /\ api_endpoint ++ "/user/pharmacy_get" = api_endpoint ++ "/user/pharmacy_get"
      /\ PDict [("version", PStr api_version);
                ("fingerprint", PBytes (b64encode (repeat 0 256)))]
         = PDict [("version", PStr api_version);
                  ("fingerprint", PBytes (b64encode packed))].
Proof.
  apply (request_carries_packed_fingerprint (module_globals sample_cfg)
           (scenario_with response_no_match)).
  apply (nth_error_In _ 13). vm_compute. reflexivity.
Defined.

Lemma answered_pass_raises_name_error_witness :
  main_step (module_globals sample_cfg) (scenario_with response_once)
  = (fst (acquire (scenario_with response_once)), Raise NameError).
Proof.
  apply (answered_pass_raises_name_error sample_cfg
           (scenario_with response_once) response_once).
  - repeat split; try reflexivity.
    + exists 0%nat. reflexivity.
    + exists zero_vector, [], (repeat 0 256). split; [reflexivity |].
      vm_compute. reflexivity.
  - reflexivity.
Defined.

Lemma loop_survives_errors_witness :
  main_loop (module_globals sample_cfg)
    [scenario_camera_fault; scenario_with response_once]
  = (concat (map (fun sc => fst (loop_pass (module_globals sample_cfg) sc))
               [scenario_camera_fault; scenario_with response_once]), Ret tt).
Proof.
  apply (loop_survives_errors (module_globals sample_cfg)
           [scenario_camera_fault; scenario_with response_once]).
  repeat constructor; intros e H; vm_compute in H; inversion H; reflexivity.
Defined.

Lemma interrupt_ends_the_loop_witness :
  main_loop (module_globals sample_cfg)
    (scenario_interrupt :: [scenario_with response_once])
  = (UtcNow
     :: Log DEBUG ("Starting the main loop | Current UTC time is "
                   ++ sc_now scenario_interrupt)
     :: [Sleep 1; Log DEBUG "Now trying to capture an image"; CaptureRead]
        ++ (if is_KeyboardInterrupt KeyboardInterrupt
            then [Log INFO "Exiting main loop because a keyboard interrupt (SIGINT) was received"]
            else []),
     Raise KeyboardInterrupt).
Proof.
  apply (interrupt_ends_the_loop (module_globals sample_cfg) scenario_interrupt
           [scenario_with response_once]
           [Sleep 1; Log DEBUG "Now trying to capture an image"; CaptureRead]
           KeyboardInterrupt).
  - vm_compute. reflexivity.
  - reflexivity.
Defined.

Lemma request_fingerprint_length_witness :
  exists text,
    PDict [("version", PStr api_version);
           ("fingerprint", PBytes (b64encode (repeat 0 256)))]
    = PDict [("version", PStr api_version); ("fingerprint", PBytes text)]
    /\ List.length text = 344%nat.
Proof.
  apply (request_fingerprint_length (module_globals sample_cfg)
           (scenario_with response_no_match)
           (api_endpoint ++ "/user/pharmacy_get")).
  apply (nth_error_In _ 13). vm_compute. reflexivity.
Defined.

(** * The claims on the module as it is written *)

(** The module binds no global of the name [data]: the guard of
    [main_step] raises [NameError] on every answer that is not [None], so
    that the lines after the guard are never reached. *)







